(** * Spyne: scalar/binary codecs, file values and the request pipeline

    A shallow embedding of
      - [spyne/model/binary.py]   (ByteArray, File, File.Value),
      - [spyne/protocol/_model.py] (integer and duration codecs),
      - [spyne/server/_base.py]   (ServerBase)
    together with the properties of these functions.

    The sources are Python 2 code ([unicode], [cStringIO], [except TypeError]
    around [b64decode], [''.join] on byte strings): a [str] is a byte string,
    [/] on integers is floor division, and [base64]/[binascii] report
    malformed input with [TypeError].  A Python [str] is modelled by [string]
    (a list of 8-bit characters). *)

From Stdlib Require Import ZArith Lia Ascii String DecimalString DecimalPos.
From stdpp Require Import gmap strings list.

Local Open Scope Z_scope.

(** ** Exceptions and results *)

(** Modelled from the spec: the exception classes [Fault]
    ([spyne.model.fault]), [ValidationError] ([spyne.error]) and [Break]
    ([spyne.util]) are not among the sources.  A validation error "always
    carries the offending raw string" (its first argument; the second is the
    optional message template), validation errors and faults are what the
    stage boundaries of the pipeline catch, and [Break] is the cancellation
    signal of the streaming protocol.  [ValidationError] is a subclass of
    [Fault]: an [except Fault] clause catches both.  The other constructors
    are the builtin exceptions the modelled code raises or lets through. *)
Inductive pyexc : Type :=
  | Fault (faultcode faultstring : string)
  | ValidationError (obj : string) (custom_msg : option string)
  | TypeError (msg : string)
  | ValueError (msg : string)
  | AssertionError (msg : string)
  | IOError (msg : string)
  | OverflowError (msg : string)
  | StopIteration
  | Break.

Definition is_Fault (e : pyexc) : bool :=
  match e with
  | Fault _ _ | ValidationError _ _ => true
  | _ => false
  end.

Definition is_ValidationError (e : pyexc) : bool :=
  match e with
  | ValidationError _ _ => true
  | _ => false
  end.

(** A call either returns a value or raises. *)
Inductive result (A : Type) : Type :=
  | Ok (a : A)
  | Raise (e : pyexc).
Arguments Ok {A} a.
Arguments Raise {A} e.

(** ** Byte strings *)

(** Modelled from the spec: [spyne.util._bytes_join] is not among the
    sources; it is the "raw concatenation of chunks", [''.join(val)]. *)
Definition _bytes_join (val : list string) : string :=
  foldr String.append "" val.

(** Iterating over a [str] yields its one-character strings; this is what
    [_bytes_join] sees when it is handed a [str] instead of a list. *)
Fixpoint iter_str (s : string) : list string :=
  match s with
  | EmptyString => []
  | String c rest => String c "" :: iter_str rest
  end.

(** [len(s) % 2] *)
Fixpoint odd_length (s : string) : bool :=
  match s with
  | EmptyString => false
  | String _ rest => negb (odd_length rest)
  end.

(** ** [binascii]: hexadecimal *)

Module Hex.

Inductive nibble : Type := Nibble (b3 b2 b1 b0 : bool).

Definition hi (a : ascii) : nibble :=
  let '(Ascii _ _ _ _ a4 a5 a6 a7) := a in Nibble a7 a6 a5 a4.
Definition lo (a : ascii) : nibble :=
  let '(Ascii a0 a1 a2 a3 _ _ _ _) := a in Nibble a3 a2 a1 a0.
Definition byte_of (h l : nibble) : ascii :=
  let '(Nibble h3 h2 h1 h0) := h in
  let '(Nibble l3 l2 l1 l0) := l in
  Ascii l0 l1 l2 l3 h0 h1 h2 h3.

Definition nibble_index (n : nibble) : nat :=
  let '(Nibble b3 b2 b1 b0) := n in
  ((if b3 then 8 else 0) + (if b2 then 4 else 0) +
   (if b1 then 2 else 0) + (if b0 then 1 else 0))%nat.

Definition nibble_of_index (i : nat) : nibble :=
  let n := N.of_nat i in
  Nibble (N.testbit n 3) (N.testbit n 2) (N.testbit n 1) (N.testbit n 0).

(** [hexlify] writes lower-case digits. *)
Definition hexdigits : string := "0123456789abcdef".

Definition hexdigit (n : nibble) : ascii :=
  match String.get (nibble_index n) hexdigits with
  | Some c => c
  | None => "0"%char
  end.

(** [to_int]: digits in either case are accepted by [unhexlify]. *)
Definition to_int (c : ascii) : option nibble :=
  let n := nat_of_ascii c in
  if ((48 <=? n) && (n <=? 57))%nat then Some (nibble_of_index (n - 48))
  else if ((97 <=? n) && (n <=? 102))%nat then Some (nibble_of_index (n - 87))
  else if ((65 <=? n) && (n <=? 70))%nat then Some (nibble_of_index (n - 55))
  else None.

Fixpoint hexlify (s : string) : string :=
  match s with
  | EmptyString => ""
  | String a rest => String (hexdigit (hi a)) (String (hexdigit (lo a)) (hexlify rest))
  end.

(** The digit pairs of [unhexlify]; [None] is "Non-hexadecimal digit
    found".  A trailing single character cannot occur behind the length
    check of [unhexlify]. *)
Fixpoint unhexlify_pairs (s : string) : option string :=
  match s with
  | EmptyString => Some ""
  | String _ EmptyString => None
  | String t (String b rest) =>
      match to_int t, to_int b with
      | Some top, Some bot =>
          match unhexlify_pairs rest with
          | Some r => Some (String (byte_of top bot) r)
          | None => None
          end
      | _, _ => None
      end
  end.

Definition unhexlify (s : string) : result string :=
  if odd_length s then Raise (TypeError "Odd-length string")
  else match unhexlify_pairs s with
       | Some r => Ok r
       | None => Raise (TypeError "Non-hexadecimal digit found")
       end.

End Hex.

(** ** [binascii] and [base64]: base64 *)

Module Base64.

Inductive sextet : Type := Sextet (b5 b4 b3 b2 b1 b0 : bool).

Definition sextet_index (s : sextet) : nat :=
  let '(Sextet b5 b4 b3 b2 b1 b0) := s in
  ((if b5 then 32 else 0) + (if b4 then 16 else 0) + (if b3 then 8 else 0) +
   (if b2 then 4 else 0) + (if b1 then 2 else 0) + (if b0 then 1 else 0))%nat.

Definition sextet_of_index (i : nat) : sextet :=
  let n := N.of_nat i in
  Sextet (N.testbit n 5) (N.testbit n 4) (N.testbit n 3)
         (N.testbit n 2) (N.testbit n 1) (N.testbit n 0).

Definition table_b2a_base64 : string :=
  "ABCDEFGHIJKLMNOPQRSTUVWXYZabcdefghijklmnopqrstuvwxyz0123456789+/".

Definition BASE64_PAD : ascii := "="%char.

Definition b2a (s : sextet) : ascii :=
  match String.get (sextet_index s) table_b2a_base64 with
  | Some c => c
  | None => BASE64_PAD
  end.

Fixpoint index_in (c : ascii) (tbl : string) (i : nat) : option nat :=
  match tbl with
  | EmptyString => None
  | String d rest => if Ascii.eqb c d then Some i else index_in c rest (S i)
  end.

(** [table_a2b_base64] restricted to the alphabet (the pad character is
    treated before the table is consulted). *)
Definition a2b (c : ascii) : option sextet :=
  match index_in c table_b2a_base64 0 with
  | Some i => Some (sextet_of_index i)
  | None => None
  end.

(** The four sextets of a 24-bit group [a b c], most significant first. *)
Definition sextet0 (a : ascii) : sextet :=
  let '(Ascii _ _ a2 a3 a4 a5 a6 a7) := a in Sextet a7 a6 a5 a4 a3 a2.
Definition sextet1 (a b : ascii) : sextet :=
  let '(Ascii a0 a1 _ _ _ _ _ _) := a in
  let '(Ascii _ _ _ _ b4 b5 b6 b7) := b in Sextet a1 a0 b7 b6 b5 b4.
Definition sextet2 (b c : ascii) : sextet :=
  let '(Ascii b0 b1 b2 b3 _ _ _ _) := b in
  let '(Ascii _ _ _ _ _ _ c6 c7) := c in Sextet b3 b2 b1 b0 c7 c6.
Definition sextet3 (c : ascii) : sextet :=
  let '(Ascii c0 c1 c2 c3 c4 c5 _ _) := c in Sextet c5 c4 c3 c2 c1 c0.

(** [base64.b64encode]: RFC 4648 with padding, no line breaks. *)
Fixpoint b64encode (s : string) : string :=
  match s with
  | EmptyString => ""
  | String a EmptyString =>
      String (b2a (sextet0 a)) (String (b2a (sextet1 a zero)) "==")
  | String a (String b EmptyString) =>
      String (b2a (sextet0 a)) (String (b2a (sextet1 a b))
        (String (b2a (sextet2 b zero)) "="))
  | String a (String b (String c rest)) =>
      String (b2a (sextet0 a)) (String (b2a (sextet1 a b))
        (String (b2a (sextet2 b c)) (String (b2a (sextet3 c)) (b64encode rest))))
  end.

(** The decoder of CPython 2's [binascii.a2b_base64].  Its state between
    two characters is the position in the current quad and the bits of the
    last sextet not yet written out ([quad_pos], [leftchar], [leftbits]). *)
Inductive quad : Type :=
  | Q0
  | Q1 (s0 : sextet)
  | Q2 (s1 : sextet)
  | Q3 (s2 : sextet).

Definition quad_pos (q : quad) : nat :=
  match q with Q0 => 0 | Q1 _ => 1 | Q2 _ => 2 | Q3 _ => 3 end.

(** The byte completed by the second, third and fourth sextet of a quad. *)
Definition byte1 (s0 s1 : sextet) : ascii :=
  let '(Sextet x5 x4 x3 x2 x1 x0) := s0 in
  let '(Sextet y5 y4 _ _ _ _) := s1 in
  Ascii y4 y5 x0 x1 x2 x3 x4 x5.
Definition byte2 (s1 s2 : sextet) : ascii :=
  let '(Sextet _ _ x3 x2 x1 x0) := s1 in
  let '(Sextet y5 y4 y3 y2 _ _) := s2 in
  Ascii y2 y3 y4 y5 x0 x1 x2 x3.
Definition byte3 (s2 s3 : sextet) : ascii :=
  let '(Sextet _ _ _ _ x1 x0) := s2 in
  let '(Sextet y5 y4 y3 y2 y1 y0) := s3 in
  Ascii y0 y1 y2 y3 y4 y5 x0 x1.

(** Characters the decoder steps over before looking at them:
    [this_ch > 0x7f || this_ch == '\r' || this_ch == '\n' || this_ch == ' ']. *)
Definition is_skipped (c : ascii) : bool :=
  let n := nat_of_ascii c in
  ((127 <? n) || (n =? 13) || (n =? 10) || (n =? 32))%nat.

(** A character the table knows; the pad character is one of them. *)
Definition is_valid (c : ascii) : bool :=
  match a2b c with
  | Some _ => true
  | None => Ascii.eqb c BASE64_PAD
  end.

(** [binascii_find_valid(s, slen, num)]: the [(num+1)]-th valid character
    of [s], if any. *)
Fixpoint binascii_find_valid (s : string) (num : nat) : option ascii :=
  match s with
  | EmptyString => None
  | String c rest =>
      if is_valid c then
        match num with
        | O => Some c
        | S n => binascii_find_valid rest n
        end
      else binascii_find_valid rest num
  end.

Definition next_is_pad (s : string) : bool :=
  match binascii_find_valid s 1 with
  | Some c => Ascii.eqb c BASE64_PAD
  | None => false
  end.

Definition emit (c : ascii) (r : option string) : option string :=
  match r with
  | Some s => Some (String c s)
  | None => None
  end.

Definition prepend (s : string) (r : option string) : option string :=
String.append s <$> r.

(** The main loop; [None] is the error "Incorrect padding", raised when
    the input ends inside a quad ([leftbits != 0]).  A pad sequence in a
    legal position ends the input: whatever follows is not looked at. *)
Fixpoint a2b_base64_loop (s : string) (q : quad) : option string :=
  match s with
  | EmptyString =>
      match q with
      | Q0 => Some ""
      | _ => None
      end
  | String c rest =>
      if is_skipped c then a2b_base64_loop rest q
      else if Ascii.eqb c BASE64_PAD then
        if ((quad_pos q <? 2) ||
            ((quad_pos q =? 2) && negb (next_is_pad s)))%nat
        then a2b_base64_loop rest q
        else Some ""
      else
        match a2b c with
        | None => a2b_base64_loop rest q
        | Some v =>
            match q with
            | Q0 => a2b_base64_loop rest (Q1 v)
            | Q1 s0 => emit (byte1 s0 v) (a2b_base64_loop rest (Q2 v))
            | Q2 s1 => emit (byte2 s1 v) (a2b_base64_loop rest (Q3 v))
            | Q3 s2 => emit (byte3 s2 v) (a2b_base64_loop rest Q0)
            end
        end
  end.

(** [base64.b64decode] of Python 2: [binascii.Error] becomes [TypeError]. *)
Definition b64decode (s : string) : result string :=
  match a2b_base64_loop s Q0 with
  | Some r => Ok r
  | None => Raise (TypeError "Incorrect padding")
  end.

(** [s.translate(...)] of the URL-safe variants. *)
Definition urlsafe_char (c : ascii) : ascii :=
  if Ascii.eqb c "+" then "-"%char
  else if Ascii.eqb c "/" then "_"%char else c.
Definition standard_char (c : ascii) : ascii :=
  if Ascii.eqb c "-" then "+"%char
  else if Ascii.eqb c "_" then "/"%char else c.

Fixpoint translate (f : ascii -> ascii) (s : string) : string :=
  match s with
  | EmptyString => ""
  | String c rest => String (f c) (translate f rest)
  end.

Definition urlsafe_b64encode (s : string) : string :=
  translate urlsafe_char (b64encode s).
Definition urlsafe_b64decode (s : string) : result string :=
  b64decode (translate standard_char s).

End Base64.

(** ** Monads for fallible and for stateful, fallible code *)

#[global] Instance result_ret : MRet result := fun _ a => Ok a.
#[global] Instance result_bind : MBind result :=
  fun _ _ f r => match r with Ok a => f a | Raise e => Raise e end.

(** A computation over a mutable state [S]: it returns the final state and
    either a value or the exception that left it.  The state is kept when an
    exception is raised, as the mutations done before a [raise] remain. *)
Definition M (S A : Type) : Type := S -> S * result A.

#[global] Instance M_ret {S} : MRet (M S) := fun _ a s => (s, Ok a).
#[global] Instance M_bind {S} : MBind (M S) :=
  fun _ _ f m s =>
    match m s with
    | (s', Ok a) => f a s'
    | (s', Raise e) => (s', Raise e)
    end.

Definition raise {S A} (e : pyexc) : M S A := fun s => (s, Raise e).
Definition get {S} : M S S := fun s => (s, Ok s).
Definition modify {S} (f : S -> S) : M S unit := fun s => (f s, Ok tt).
Definition assert {S} (b : bool) (msg : string) : M S unit :=
  if b then mret tt else raise (AssertionError msg).

(** ** [spyne.model.binary] *)

Inductive binary_encoding : Type :=
  | ENCODING_NONE                    (* the key [None]: raw *)
  | BINARY_ENCODING_HEX
  | BINARY_ENCODING_BASE64
  | BINARY_ENCODING_USE_DEFAULT
  | BINARY_ENCODING_URLSAFE_BASE64.

Module ByteArray.

Definition to_base64 (value : list string) : string :=
  Base64.b64encode (_bytes_join value).

Definition from_base64 (value : string) : result (list string) :=
  match Base64.b64decode (_bytes_join (iter_str value)) with
  | Ok r => Ok [r]
  | Raise (TypeError _) => Raise (ValidationError value None)
  | Raise e => Raise e
  end.

Definition to_urlsafe_base64 (value : list string) : string :=
  Base64.urlsafe_b64encode (_bytes_join value).

(** [value] is a [str] here, so the [unicode] branch is not taken. *)
Definition from_urlsafe_base64 (value : string) : result (list string) :=
  r ← Base64.urlsafe_b64decode (_bytes_join (iter_str value)); Ok [r].

Definition to_hex (value : list string) : string :=
  Hex.hexlify (_bytes_join value).

Definition from_hex (value : string) : result (list string) :=
  r ← Hex.unhexlify (_bytes_join (iter_str value)); Ok [r].

End ByteArray.

(** The two handler dictionaries; a key that is absent is [None]
    (a [KeyError] at the lookup). *)
Definition binary_encoding_handlers (k : binary_encoding)
  : option (list string -> string) :=
  match k with
  | ENCODING_NONE => Some _bytes_join
  | BINARY_ENCODING_HEX => Some ByteArray.to_hex
  | BINARY_ENCODING_BASE64 => Some ByteArray.to_base64
  | BINARY_ENCODING_URLSAFE_BASE64 => Some ByteArray.to_urlsafe_base64
  | BINARY_ENCODING_USE_DEFAULT => None
  end.

Definition binary_decoding_handlers (k : binary_encoding)
  : option (string -> result (list string)) :=
  match k with
  | ENCODING_NONE => Some (fun x => Ok [x])
  | BINARY_ENCODING_HEX => Some ByteArray.from_hex
  | BINARY_ENCODING_BASE64 => Some ByteArray.from_base64
  | BINARY_ENCODING_URLSAFE_BASE64 => Some ByteArray.from_urlsafe_base64
  | BINARY_ENCODING_USE_DEFAULT => None
  end.

(** [os.path] on POSIX. *)
Module os_path.

Definition isabs (s : string) : bool :=
  match s with
  | String c _ => Ascii.eqb c "/"
  | EmptyString => false
  end.

Fixpoint has_sep (p : string) : bool :=
  match p with
  | EmptyString => false
  | String c rest => Ascii.eqb c "/" || has_sep rest
  end.

(** [p[p.rfind('/') + 1:]] *)
Fixpoint basename (p : string) : string :=
  match p with
  | EmptyString => ""
  | String c rest =>
      if Ascii.eqb c "/" || has_sep rest then basename rest else p
  end.

End os_path.

(** [f.read(n)] on the rest of a file: the bytes read and what is left. *)
Fixpoint read (n : nat) (f : string) : string * string :=
  match n, f with
  | S k, String c rest => let '(d, f') := read k rest in (String c d, f')
  | _, _ => ("", f)
  end.

Module File.

(** [File.Value]: the content lives in [data] (a sequence of chunks), at
    [path] on disk, or behind [handle]. *)
Record Value : Type := mkValue {
  name : option string;
  path : option string;
  type : string;
  data : option (list string);
  handle : option string
}.

Definition set_name (v : Value) (x : option string) : Value :=
  mkValue x (path v) (type v) (data v) (handle v).
Definition set_path (v : Value) (x : option string) : Value :=
  mkValue (name v) x (type v) (data v) (handle v).
Definition set_data (v : Value) (x : option (list string)) : Value :=
  mkValue (name v) (path v) (type v) x (handle v).

(** [Value.__init__] *)
Definition Value_init (name path : option string) (type : string)
    (data : option (list string)) (handle : option string) : result Value :=
  match name with
  | Some n =>
      if String.eqb (os_path.basename n) n then Ok tt
      else Raise (AssertionError "")
  | None => Ok tt
  end ;;
  match path with
  | Some p => if os_path.isabs p then Ok tt else Raise (AssertionError "")
  | None => Ok tt
  end ;;
  Ok (mkValue name path type data handle).

(** What [rollover] acts on: the file system (content by path) and the
    value itself. *)
Record world : Type := mkWorld {
  fs : gmap string string;
  self : Value
}.

Definition set_self (f : Value -> Value) : M world unit :=
  modify (fun w => mkWorld (fs w) (f (self w))).
Definition set_file (p content : string) : M world unit :=
  modify (fun w => mkWorld (<[p := content]> (fs w)) (self w)).

(** [f.write(data)] on the file opened at [p]. *)
Definition write (p data : string) : M world unit :=
  w ← get;
  set_file p (default "" (fs w !! p) +:+ data).

Fixpoint write_all (p : string) (chunks : list string) : M world unit :=
  match chunks with
  | [] => mret tt
  | data :: rest => write p data ;; write_all p rest
  end.

Section rollover.

(** The path [tempfile.mkstemp()] picks in a given file system. *)
Variable mkstemp : gmap string string -> string.

(** [Value.rollover].  The open file [f] is identified by the path it
    was opened on; [mkstemp] creates its file empty and [open(_, 'wb')]
    truncates. *)
Definition rollover : M world unit :=
  w ← get;
  match data (self w) with
  | None => raise (TypeError "'NoneType' object is not iterable")
  | Some _ => mret tt
  end ;;
  f ← match path (self w) with
      | None =>
          let p := mkstemp (fs w) in
          set_file p "" ;;
          set_self (fun v => set_path v (Some p)) ;;
          mret p
      | Some p =>
          assert (os_path.isabs p) "" ;;
          set_file p "" ;;
          mret p
      end;
  w ← get;
  match name (self w) with
  | None => set_self (fun v => set_name v (Some (os_path.basename f)))
  | Some _ => mret tt
  end ;;
  write_all f (default [] (data (self w))) ;;
  set_self (fun v => set_data v None).

End rollover.

(** The chunk size of [to_base64]: [0x4000]. *)
Definition chunk_size : nat := Z.to_nat 0x4000.

(** The [while len(data) > 0] loop of [to_base64]; [f] is the unread rest
    of the file.  [None] when the fuel runs out. *)
Fixpoint to_base64_loop (fuel : nat) (data f : string) : option (list string) :=
  match fuel with
  | O => None
  | S k =>
      if (0 <? String.length data)%nat then
        let '(data', f') := read chunk_size f in
        cons (Base64.b64encode data) <$> to_base64_loop k data' f'
      else Some []
  end.

(** [File.to_base64] driven to exhaustion: the chunks it yields, in order,
    or the exception that ends it.  [raise StopIteration()] ends the
    generator without a chunk.  The outer [None] stands for a loop that
    outruns its fuel, which does not happen ([FileFacts.to_base64_returns]). *)
Definition to_base64 (fs : gmap string string) (value : option Value)
  : option (result (list string)) :=
  match value with
  | None => Some (Ok [])
  | Some value =>
      match path value with
      | None | Some EmptyString =>
          Some (Raise (AssertionError "You need to write data to persistent storage first if you want to read it back."))
      | Some p =>
          match fs !! p with
          | None => Some (Raise (IOError "No such file or directory"))
          | Some content =>
              let '(data, f) := read chunk_size content in
              Ok <$> to_base64_loop (S (String.length content)) data f
          end
      end
  end.

(** [File.from_base64] *)
Definition from_base64 (value : option string) : result (option Value) :=
  match value with
  | None => Ok None
  | Some value =>
      d ← Base64.b64decode value;
      v ← Value_init None None "application/octet-stream" (Some [d]) None;
      Ok (Some v)
  end.

End File.

(** [c * n] *)
Fixpoint replicate_char (n : nat) (c : ascii) : string :=
  match n with
  | O => ""
  | S k => String c (replicate_char k c)
  end.

(** A file of [0x4001] bytes, one more than a chunk of [File.to_base64]. *)
Definition file_0x4001 : string := replicate_char (Z.to_nat 0x4001) "A".

(** ** [datetime.timedelta] *)

Module datetime.

(** A time span as Python keeps it: [days], [seconds] and [microseconds]. *)
Record timedelta : Type := mk_timedelta {
  days : Z;
  seconds : Z;
  microseconds : Z
}.

(** The constructor on integers: it carries microseconds into seconds and
    seconds into days, and refuses a day count out of range. *)
Definition timedelta_new (d s us : Z) : result timedelta :=
  let s := s + us / 1000000 in
  let us := us mod 1000000 in
  let d := d + s / 86400 in
  let s := s mod 86400 in
  if Z.abs d >? 999999999
  then Raise (OverflowError "days; must have magnitude <= 999999999")
  else Ok (mk_timedelta d s us).

(** [-value] *)
Definition neg (value : timedelta) : result timedelta :=
  timedelta_new (- days value) (- seconds value) (- microseconds value).

(** The values the constructor produces. *)
Definition normalized (value : timedelta) : Prop :=
  -999999999 <= days value <= 999999999 /\
  0 <= seconds value < 86400 /\
  0 <= microseconds value < 1000000.

(** [value.total_seconds()], kept as a fixed-point number: the count of
    microseconds.  The float of the source is the correctly rounded
    quotient of this count by [10**6]; it is exact whenever
    [microseconds] is zero (the seconds then stay below [2**53]), which is
    the only case in which [duration_to_string] depends on its value. *)
Definition total_microseconds (value : timedelta) : Z :=
  (days value * 86400 + seconds value) * 1000000 + microseconds value.

End datetime.

(** ** [spyne.protocol._model] *)

(** ["%i" % n] *)
Definition fmt_i (n : Z) : string := NilZero.string_of_int (Z.to_int n).

Definition _total_seconds (td : datetime.timedelta) : Z :=
  datetime.total_microseconds td.

(** Lines 340-378 of [duration_to_string], behind the treatment of the
    sign; [retval] is the deque of pieces, joined at the end.  [tot_sec] is
    in microseconds (see [datetime.total_microseconds]), so
    [tot_sec % 86400 == 0] reads [tot_sec mod (86400 * 10**6) = 0]. *)
Definition duration_pieces (value : datetime.timedelta) (negative : bool) : string :=
  let tot_sec := _total_seconds value in
  let seconds := datetime.seconds value mod 60 in
  let minutes := datetime.seconds value / 60 in
  let hours := minutes / 60 in
  let minutes := minutes mod 60 in
  let useconds := datetime.microseconds value in
  let retval : list string := [] in
  let retval := if negative then retval ++ ["-P"] else retval ++ ["P"] in
  let retval :=
    if negb (datetime.days value =? 0)
    then retval ++ [fmt_i (datetime.days value) +:+ "D"]
    else retval in
  if negb (tot_sec =? 0) && (tot_sec mod (86400 * 1000000) =? 0) && (useconds =? 0)
  then _bytes_join retval
  else
    let retval := retval ++ ["T"] in
    let retval := if hours >? 0 then retval ++ [fmt_i hours +:+ "H"] else retval in
    let retval := if minutes >? 0 then retval ++ [fmt_i minutes +:+ "M"] else retval in
    let retval :=
      if (seconds >? 0) || (useconds >? 0) then
        let retval := retval ++ [fmt_i seconds] in
        let retval :=
          if useconds >? 0 then retval ++ ["." +:+ fmt_i useconds] else retval in
        retval ++ ["S"]
      else retval in
    let retval := if (length retval =? 2)%nat then retval ++ ["0S"] else retval in
    _bytes_join retval.

(** [duration_to_string]: a negative span is encoded through its negation. *)
Definition duration_to_string (value : datetime.timedelta) : result string :=
  if datetime.days value <? 0
  then value' ← datetime.neg value; Ok (duration_pieces value' true)
  else Ok (duration_pieces value false).

(** Whether an encoded duration has a time segment, and whether a string
    ends on one of the designators of the time segment. *)
Fixpoint contains_char (c : ascii) (s : string) : bool :=
  match s with
  | EmptyString => false
  | String d rest => Ascii.eqb c d || contains_char c rest
  end.

Definition has_time_segment (s : string) : bool := contains_char "T" s.

Fixpoint last_char (s : string) : option ascii :=
  match s with
  | EmptyString => None
  | String c EmptyString => Some c
  | String _ rest => last_char rest
  end.

(** The first piece of an encoded duration. *)
Definition sign_of (negative : bool) : string := if negative then "-P" else "P".

Definition ends_with_designator (s : string) : bool :=
  match last_char s with
  | Some c => Ascii.eqb c "H" || Ascii.eqb c "M" || Ascii.eqb c "S"
  | None => false
  end.

(** The options of [cls.Attributes] the integer codec reads. *)
Record Attributes : Type := mkAttributes {
  max_str_len : option Z;
  format : option string
}.

Section integer.

(** The builtin [int(string)]; [None] is its [ValueError]. *)
Variable int : string -> option Z.

(** Lines 184-187: [try: return int(string)] with its [except ValueError]. *)
Definition integer_cast (string : string) : result Z :=
  match int string with
  | Some n => Ok n
  | None => Raise (ValidationError string (Some "Could not cast %r to integer"))
  end.

Definition integer_from_string (cls : Attributes) (string : string) : result Z :=
  match max_str_len cls with
  | Some m =>
      if Z.of_nat (String.length string) >? m
      then Raise (ValidationError string
                    (Some ("Integer %r longer than " +:+ fmt_i m +:+ " characters")))
      else integer_cast string
  | None => integer_cast string
  end.

End integer.

(** A reading of [int] on plain decimal literals: an optional sign and at
    least one digit. *)
Fixpoint digits_value (s : string) (acc : Z) : option Z :=
  match s with
  | EmptyString => Some acc
  | String c rest =>
      let n := Z.of_nat (nat_of_ascii c) in
      if (48 <=? n) && (n <=? 57) then digits_value rest (10 * acc + (n - 48))
      else None
  end.

Definition int_decimal (s : string) : option Z :=
  match s with
  | EmptyString => None
  | String c rest =>
      if Ascii.eqb c "-" then
        match rest with
        | EmptyString => None
        | _ => Z.opp <$> digits_value rest 0
        end
      else if Ascii.eqb c "+" then
        match rest with
        | EmptyString => None
        | _ => digits_value rest 0
        end
      else digits_value s 0
  end.

(** ** [spyne.server._base] *)

Module ServerBase.

Inductive message : Type := REQUEST | RESPONSE.

Section pipeline.

(** Documents, native objects, the values a driver sends into the
    output coroutine, and the states of a streaming producer. *)
Variables Doc Obj Y G : Type.

(** The fields of the method context the server reads or writes. *)
Record MethodContext : Type := mkCtx {
  in_string : option (list string);
  in_document : option Doc;
  in_body_doc : option Doc;
  in_header_doc : option Doc;
  method_request_string : option string;
  in_object : option Obj;
  in_header : option Obj;
  in_error : option pyexc;
  out_error : option pyexc;
  out_object : option Obj;
  out_document : option Doc;
  out_string : option (list string);
  service_class : option string
}.

Definition set_in_object (c : MethodContext) (x : option Obj) : MethodContext :=
  mkCtx (in_string c) (in_document c) (in_body_doc c) (in_header_doc c)
        (method_request_string c) x (in_header c) (in_error c) (out_error c)
        (out_object c) (out_document c) (out_string c) (service_class c).
Definition set_in_error (c : MethodContext) (x : option pyexc) : MethodContext :=
  mkCtx (in_string c) (in_document c) (in_body_doc c) (in_header_doc c)
        (method_request_string c) (in_object c) (in_header c) x (out_error c)
        (out_object c) (out_document c) (out_string c) (service_class c).
Definition set_out_error (c : MethodContext) (x : option pyexc) : MethodContext :=
  mkCtx (in_string c) (in_document c) (in_body_doc c) (in_header_doc c)
        (method_request_string c) (in_object c) (in_header c) (in_error c) x
        (out_object c) (out_document c) (out_string c) (service_class c).
Definition set_out_string (c : MethodContext) (x : option (list string))
  : MethodContext :=
  mkCtx (in_string c) (in_document c) (in_body_doc c) (in_header_doc c)
        (method_request_string c) (in_object c) (in_header c) (in_error c)
        (out_error c) (out_object c) (out_document c) x (service_class c).

(** What [serialize] hands back: a finished value, or a generator that
    has to be driven ([isgenerator(ret)]). *)
Inductive serialized : Type :=
  | Produced
  | Generator (ret : G).

(** The protocol collaborator.  Every method works on the context it is
    given and may raise. *)
Record ProtocolBase : Type := mkProtocol {
  create_in_document : option string -> M MethodContext unit;
  decompose_incoming_envelope : message -> M MethodContext unit;
  generate_method_contexts : M MethodContext (list MethodContext);
  deserialize : message -> M MethodContext unit;
  serialize : message -> M MethodContext serialized;
  create_out_string : M MethodContext unit
}.

(** [self.app.in_protocol] and [ctx.out_protocol]. *)
Variables in_protocol out_protocol : ProtocolBase.
(** [self.app.process_request] *)
Variable process_request : M MethodContext unit.
(** [service_class.event_manager.fire_event(name, ctx)]: the handlers
    subscribed to [name] run on the context. *)
Variable fire_event : string -> string -> M MethodContext unit.
(** [ret.send(y)] and [ret.throw(e)] on a producer: the producer yields
    again (its next state) or leaves with an exception, [StopIteration]
    when it returns. *)
Variable send : G -> Y -> M MethodContext G.
Variable throw : G -> pyexc -> M MethodContext G.

(** [try: body except Fault as e: handler(e)] *)
Definition try_except_Fault {S A} (body : M S A) (handler : pyexc -> M S A)
  : M S A :=
  fun s =>
    match body s with
    | (s', Ok a) => (s', Ok a)
    | (s', Raise e) => if is_Fault e then handler e s' else (s', Raise e)
    end.

(** The body of the [try] of [generate_contexts], lines 58-68. *)
Definition generate_contexts_stages (in_string_charset : option string)
  : M MethodContext (list MethodContext) :=
  create_in_document in_protocol in_string_charset ;;
  decompose_incoming_envelope in_protocol REQUEST ;;
  generate_method_contexts in_protocol.

Definition generate_contexts (in_string_charset : option string)
  : M MethodContext (list MethodContext) :=
  try_except_Fault
    (generate_contexts_stages in_string_charset)
    (fun e =>
       modify (fun ctx => set_in_object ctx None) ;;
       modify (fun ctx => set_in_error ctx (Some e)) ;;
       modify (fun ctx => set_out_error ctx (Some e)) ;;
       ctx ← get;
       mret [ctx]).

(** [get_in_object]; the call of the logger is left out. *)
Definition get_in_object : M MethodContext unit :=
  try_except_Fault
    (deserialize in_protocol REQUEST)
    (fun e =>
       modify (fun ctx => set_in_object ctx None) ;;
       modify (fun ctx => set_in_error ctx (Some e)) ;;
       modify (fun ctx => set_out_error ctx (Some e))).

Definition get_out_object : M MethodContext unit :=
  ctx ← get;
  match in_error ctx with
  | None => process_request
  | Some e => raise e
  end.

(** The state [get_out_string] runs on: the context, and the calls of
    [fire_event] made so far (event name and the context passed). *)
Record world : Type := mkWorld {
  ctx : MethodContext;
  fired : list (string * MethodContext)
}.

Definition lift {A} (m : M MethodContext A) : M world A :=
  fun w => let '(c, r) := m (ctx w) in (mkWorld c (fired w), r).

Definition fire (service_class name : string) : M world unit :=
  modify (fun w => mkWorld (ctx w) (fired w ++ [(name, ctx w)])) ;;
  lift (fire_event service_class name).

(** What the driver of the coroutine does at a [yield]. *)
Inductive driver_action : Type :=
  | Send (y : Y)
  | Throw (e : pyexc).

(** Where the coroutine stands once the driver has played its actions:
    at the [yield] still, or past the loop. *)
Inductive coroutine : Type :=
  | Suspended (ret : G)
  | Done.

(** The [while True: y = (yield); ret.send(y)] loop with its [except
    Break] clause.  An exception of [ret.send] other than [Break]
    leaves the loop and the function; [Break] out of [ret.send] is
    caught, but [ret.throw] on the producer it has just left raises it
    again. *)
Fixpoint drive (ret : G) (script : list driver_action) : M world coroutine :=
  match script with
  | [] => mret (Suspended ret)
  | Send y :: script' =>
      fun w =>
        match lift (send ret y) w with
        | (w', Ok ret') => drive ret' script' w'
        | (w', Raise e) => (w', Raise e)
        end
  | Throw Break :: _ =>
      fun w =>
        match lift (throw ret Break) w with
        | (w', Ok _) => (w', Ok Done)
        | (w', Raise StopIteration) => (w', Ok Done)
        | (w', Raise e) => (w', Raise e)
        end
  | Throw e :: _ => raise e
  end.

(** Lines 115-128: the document is built unless it is there already. *)
Definition serialize_stage (script : list driver_action) : M world coroutine :=
  w ← get;
  match out_document (ctx w) with
  | None =>
      ret ← lift (serialize out_protocol RESPONSE);
      match ret with
      | Generator ret => drive ret script
      | Produced => mret Done
      end
  | Some _ => mret Done
  end.

(** Lines 130-136 *)
Definition fire_document_event : M world unit :=
  w ← get;
  match service_class (ctx w) with
  | Some sc =>
      match out_error (ctx w) with
      | None => fire sc "method_return_document"
      | Some _ => fire sc "method_exception_document"
      end
  | None => mret tt
  end.

(** Lines 140-146 *)
Definition fire_string_event : M world unit :=
  w ← get;
  match service_class (ctx w) with
  | Some sc =>
      match out_error (ctx w) with
      | None => fire sc "method_return_string"
      | Some _ => fire sc "method_exception_string"
      end
  | None => mret tt
  end.

(** Lines 148-149 *)
Definition default_out_string : M world unit :=
  w ← get;
  match out_string (ctx w) with
  | None =>
      modify (fun w => mkWorld (set_out_string (ctx w) (Some [""])) (fired w))
  | Some _ => mret tt
  end.

(** The name of the event of a phase ([scope] is ["document"] or
    ["string"]), selected by [out_error], and the call of [fire_event]
    a phase makes on a context: none without a service class. *)
Definition event_name (scope : string) (error : option pyexc) : string :=
  match error with
  | None => "method_return_" +:+ scope
  | Some _ => "method_exception_" +:+ scope
  end.

Definition event_for (scope : string) (c : MethodContext)
  : list (string * MethodContext) :=
  match service_class c with
  | Some _ => [(event_name scope (out_error c), c)]
  | None => []
  end.

(** The calls of [fire_event] of one phase: none, or one call whose event
    name is the one [out_error] of the context passed selects. *)
Definition phase_log (scope : string) (l : list (string * MethodContext)) : Prop :=
l = [] \/
exists c sc, service_class c = Some sc /\ l = [(event_name scope (out_error c), c)].

(** The world behind lines 148-149. *)
Definition with_default (w : world) : world :=
match out_string (ctx w) with
| Some _ => w
| None => mkWorld (set_out_string (ctx w) (Some [""])) (fired w)
end.

(** Lines 130-146, between the loop and the default. *)
Definition output_stages : M world unit :=
  fire_document_event ;;
  lift (create_out_string out_protocol) ;;
  fire_string_event.

(** [get_out_string].  The decorator [coroutine] of [spyne.util] is not
    among the sources; modelled from the spec, it starts the "cooperative
    unit" so that it stands at its first [yield] (or has returned) when the
    call comes back, after which the driver resumes it "repeatedly ...
    forwarding externally supplied values into it": here it runs up to its
    first [yield], and each action of [script] resumes it. *)
Definition get_out_string (script : list driver_action) : M world coroutine :=
  w ← get;
  match out_string (ctx w) with
  | Some _ => mret Done
  | None =>
      st ← serialize_stage script;
      match st with
      | Suspended ret => mret (Suspended ret)
      | Done =>
          output_stages ;;
          default_out_string ;;
          mret Done
      end
  end.

End pipeline.

Arguments mkCtx {Doc Obj}.
Arguments in_string {Doc Obj}.
Arguments in_document {Doc Obj}.
Arguments in_body_doc {Doc Obj}.
Arguments in_header_doc {Doc Obj}.
Arguments method_request_string {Doc Obj}.
Arguments in_object {Doc Obj}.
Arguments in_header {Doc Obj}.
Arguments in_error {Doc Obj}.
Arguments out_error {Doc Obj}.
Arguments out_object {Doc Obj}.
Arguments out_document {Doc Obj}.
Arguments out_string {Doc Obj}.
Arguments service_class {Doc Obj}.
Arguments set_in_object {Doc Obj}.
Arguments set_in_error {Doc Obj}.
Arguments set_out_error {Doc Obj}.
Arguments set_out_string {Doc Obj}.
Arguments Produced {G}.
Arguments Generator {G}.
Arguments mkProtocol {Doc Obj G}.
Arguments create_in_document {Doc Obj G}.
Arguments decompose_incoming_envelope {Doc Obj G}.
Arguments generate_method_contexts {Doc Obj G}.
Arguments deserialize {Doc Obj G}.
Arguments serialize {Doc Obj G}.
Arguments create_out_string {Doc Obj G}.
Arguments generate_contexts_stages {Doc Obj G}.
Arguments generate_contexts {Doc Obj G}.
Arguments get_in_object {Doc Obj G}.
Arguments get_out_object {Doc Obj}.
Arguments mkWorld {Doc Obj}.
Arguments ctx {Doc Obj}.
Arguments fired {Doc Obj}.
Arguments lift {Doc Obj A}.
Arguments fire {Doc Obj}.
Arguments Send {Y}.
Arguments Throw {Y}.
Arguments Suspended {G}.
Arguments Done {G}.
Arguments drive {Doc Obj Y G}.
Arguments serialize_stage {Doc Obj Y G}.
Arguments fire_document_event {Doc Obj}.
Arguments fire_string_event {Doc Obj}.
Arguments default_out_string {Doc Obj}.
Arguments event_for {Doc Obj}.
Arguments phase_log {Doc Obj}.
Arguments with_default {Doc Obj}.
Arguments output_stages {Doc Obj G}.
Arguments get_out_string {Doc Obj Y G}.

(** A request that arrives with nothing but its input string. *)
Definition new_context (Doc Obj : Type) (s : list string)
    (service_class : option string) : MethodContext Doc Obj :=
  mkCtx (Some s) None None None None None None None None None None None
        service_class.

(** How a run of [get_out_string] ends for the code that drives it.  In
    Python 2 a generator that returns and a generator whose body a
    [StopIteration] leaves look the same from outside: [send] and [throw]
    raise [StopIteration] in both cases.  Every other exception reaches the
    driver as an error, and a suspended coroutine has not ended. *)
Definition completed {G : Type} (r : result (coroutine G)) : bool :=
  match r with
  | Ok Done => true
  | Ok (Suspended _) => false
  | Raise StopIteration => true
  | Raise _ => false
  end.

End ServerBase.

(** A service without types of its own, for the examples: documents,
    objects and sent values are [unit]; a streaming producer is the number
    of values it still accepts. *)
Module Sample.
Import ServerBase.

Definition void_protocol : ProtocolBase unit unit nat :=
mkProtocol (fun _ => mret tt) (fun _ => mret tt) (c ← get; mret [c])
           (fun _ => mret tt) (fun _ => mret Produced) (mret tt).

(** A protocol whose [create_in_document] fails with [e]. *)
Definition rejecting_protocol (e : pyexc) : ProtocolBase unit unit nat :=
mkProtocol (fun _ => raise e) (fun _ => mret tt) (c ← get; mret [c])
           (fun _ => mret tt) (fun _ => mret Produced) (mret tt).

(** A protocol whose [serialize] hands back a producer that takes two values. *)
Definition streaming_protocol : ProtocolBase unit unit nat :=
mkProtocol (fun _ => mret tt) (fun _ => mret tt) (c ← get; mret [c])
           (fun _ => mret tt) (fun _ => mret (Generator 2%nat)) (mret tt).

Definition no_handlers : string -> string -> M (MethodContext unit unit) unit :=
fun _ _ => mret tt.

Definition send : nat -> unit -> M (MethodContext unit unit) nat :=
fun g _ => match g with O => raise StopIteration | S k => mret k end.

Definition throw : nat -> pyexc -> M (MethodContext unit unit) nat :=
fun _ e => match e with Break => raise StopIteration | _ => raise e end.

Definition request : MethodContext unit unit :=
new_context unit unit ["<request/>"] (Some "HelloService").

Definition start : world unit unit := mkWorld request [].

End Sample.

(** ** Further functions of [spyne.protocol._model] *)

(** The option of [cls.Attributes] the binary codecs read. *)
Record BinaryAttributes : Type := mkBinaryAttributes {
  encoding : binary_encoding
}.

(** [encoding is BINARY_ENCODING_USE_DEFAULT] *)
Definition is_use_default (k : binary_encoding) : bool :=
  match k with
  | BINARY_ENCODING_USE_DEFAULT => true
  | _ => false
  end.

(** [byte_array_from_string]; [None] is the [KeyError] of the lookup in the
    handler dictionary. *)
Definition byte_array_from_string (cls : BinaryAttributes) (value : string)
    (suggested_encoding : binary_encoding) : option (result (list string)) :=
  let encoding := encoding cls in
  let encoding := if is_use_default encoding then suggested_encoding else encoding in
  match binary_decoding_handlers encoding with
  | Some handler => Some (handler value)
  | None => None
  end.

(** [byte_array_to_string] *)
Definition byte_array_to_string (cls : BinaryAttributes) (value : list string)
    (suggested_encoding : binary_encoding) : option string :=
  let encoding := encoding cls in
  let encoding := if is_use_default encoding then suggested_encoding else encoding in
  match binary_encoding_handlers encoding with
  | Some handler => Some (handler value)
  | None => None
  end.

(** [file_from_string] *)
Definition file_from_string (cls : BinaryAttributes) (value : string)
    (suggested_encoding : binary_encoding) : option (result File.Value) :=
  let encoding := encoding cls in
  let encoding := if is_use_default encoding then suggested_encoding else encoding in
  match binary_decoding_handlers encoding with
  | Some handler =>
      Some (d ← handler value;
            File.Value_init None None "application/octet-stream" (Some d) None)
  | None => None
  end.

(** The [while len(data) > 0] loop of [_file_to_iter], which reads blocks of
    65536 bytes; [f] is the unread rest of the file.  [None] when the fuel
    runs out. *)
Fixpoint _file_to_iter_loop (fuel : nat) (data f : string) : option (list string) :=
  match fuel with
  | O => None
  | S k =>
      if (0 <? String.length data)%nat then
        let '(data', f') := read (Z.to_nat 65536) f in
        cons data <$> _file_to_iter_loop k data' f'
      else Some []
  end.

(** [_file_to_iter] driven to exhaustion on a file object positioned at its
    start; [f] is the content of the file. *)
Definition _file_to_iter (f : string) : option (list string) :=
  let '(data, f') := read (Z.to_nat 65536) f in
  _file_to_iter_loop (S (String.length f)) data f'.

(** [file_to_string_iterable], its result driven to exhaustion.  The
    [handle] of a value is the content of the file object it stands for,
    read from the start ([f.seek(0)]).  The outer [None] stands for a loop
    that outruns its fuel. *)
Definition file_to_string_iterable (fs : gmap string string) (value : File.Value)
  : option (result (list string)) :=
  match File.data value with
  | None =>
      match File.handle value with
      | None =>
          match File.path value with
          | None =>
              Some (Raise (AssertionError "You need to write data to persistent storage first if you want to read it back."))
          | Some p =>
              match fs !! p with
              | None => Some (Raise (IOError "No such file or directory"))
              | Some content => Ok <$> _file_to_iter content
              end
          end
      | Some f => Ok <$> _file_to_iter f
      end
  | Some data => Some (Ok data)
  end.

(** [s.lower()] on a byte string: the letters [A]-[Z] are mapped. *)
Definition lower_char (c : ascii) : ascii :=
  let n := nat_of_ascii c in
  if ((65 <=? n) && (n <=? 90))%nat then ascii_of_nat (n + 32) else c.

Fixpoint lower (s : string) : string :=
  match s with
  | EmptyString => ""
  | String c rest => String (lower_char c) (lower rest)
  end.

(** [str(b)] on a [bool] *)
Definition str_bool (b : bool) : string := if b then "True" else "False".

(** [boolean_to_string]; [value] is what [bool(value)] gives. *)
Definition boolean_to_string (value : bool) : string := lower (str_bool value).

(** [boolean_from_string] *)
Definition boolean_from_string (string : string) : bool :=
  bool_decide (lower string ∈ ["true"; "1"]).

Section integer_to_string.

(** The operator [format % value] on an integer. *)
Variable percent : string -> Z -> string.

(** [integer_to_string]; [int(value)] leaves an integer as it is, and
    [str(value)] is its decimal form. *)
Definition integer_to_string (cls : Attributes) (value : Z) : string :=
  match format cls with
  | None => fmt_i value
  | Some format => percent format value
  end.

End integer_to_string.

(** ** [Attachment] and the stream codec of [base64] *)

(** The exceptions of this part that [pyexc] does not have: the plain
    [Exception] that [Attachment] raises, and [binascii.Error], which
    [base64.decode] lets through as it is. *)
Inductive stream_exc : Type :=
  | Exception (msg : string)
  | binascii_Error (msg : string)
  | Builtin (e : pyexc).

Inductive outcome (A : Type) : Type :=
  | Returns (a : A)
  | Raises (e : stream_exc).
Arguments Returns {A} a.
Arguments Raises {A} e.

Module base64.

Definition MAXLINESIZE : nat := 76.
Definition MAXBINSIZE : nat := (MAXLINESIZE / 4) * 3.

Definition LF : ascii := ascii_of_nat 10.

(** [binascii.b2a_base64]: the encoding and a newline. *)
Definition b2a_base64 (s : string) : string :=
  Base64.b64encode s +:+ String LF "".

(** The inner loop of [encode], which reads on while the block is short:
    [while len(s) < MAXBINSIZE].  Every round adds a byte or ends the loop,
    so [MAXBINSIZE] rounds are enough, and at [O] the block is full. *)
Fixpoint encode_fill (fuel : nat) (s input : string) : string * string :=
  match fuel with
  | O => (s, input)
  | S k =>
      if (String.length s <? MAXBINSIZE)%nat then
        let '(ns, input') := read (MAXBINSIZE - String.length s) input in
        match ns with
        | EmptyString => (s, input)
        | _ => encode_fill k (s +:+ ns) input'
        end
      else (s, input)
  end.

(** The [while True] loop of [base64.encode]; the result is what was
    written to [output].  [None] when the fuel runs out. *)
Fixpoint encode_loop (fuel : nat) (input : string) : option string :=
  match fuel with
  | O => None
  | S k =>
      let '(s, input) := read MAXBINSIZE input in
      match s with
      | EmptyString => Some ""
      | _ =>
          let '(s, input) := encode_fill MAXBINSIZE s input in
          String.append (b2a_base64 s) <$> encode_loop k input
      end
  end.

Definition encode (input : string) : option string :=
  encode_loop (S (String.length input)) input.

(** [input.readline()]: the line with its newline, and what is left. *)
Fixpoint readline (input : string) : string * string :=
  match input with
  | EmptyString => ("", "")
  | String c rest =>
      if Ascii.eqb c LF then (String c "", rest)
      else let '(line, rest') := readline rest in (String c line, rest')
  end.

(** The [while True] loop of [base64.decode]. *)
Fixpoint decode_loop (fuel : nat) (input : string) : option (outcome string) :=
  match fuel with
  | O => None
  | S k =>
      let '(line, input) := readline input in
      match line with
      | EmptyString => Some (Returns "")
      | _ =>
          match Base64.a2b_base64_loop line Base64.Q0 with
          | None => Some (Raises (binascii_Error "Incorrect padding"))
          | Some s =>
              match decode_loop k input with
              | Some (Returns r) => Some (Returns (s +:+ r))
              | other => other
              end
          end
      end
  end.

Definition decode (input : string) : option (outcome string) :=
  decode_loop (S (String.length input)) input.

End base64.

Module Attachment.

Record Attachment : Type := mkAttachment {
  data : option string;
  file_name : option string
}.

(** [not x] on an optional string: [None] and the empty string are false. *)
Definition falsy (x : option string) : bool :=
  match x with
  | None | Some EmptyString => true
  | Some _ => false
  end.

(** [save_to_file] on a file system. *)
Definition save_to_file (fs : gmap string string) (self : Attachment)
  : gmap string string * outcome unit :=
  if falsy (data self) then (fs, Raises (Exception "No data to write"))
  else if falsy (file_name self) then (fs, Raises (Exception "No file_name specified"))
  else (<[default "" (file_name self) := default "" (data self)]> fs, Returns tt).

(** [load_from_file]: the attachment with its [data] read from the file. *)
Definition load_from_file (fs : gmap string string) (self : Attachment)
  : outcome Attachment :=
  if falsy (file_name self) then Raises (Exception "No file_name specified")
  else
    match fs !! default "" (file_name self) with
    | None => Raises (Builtin (IOError "No such file or directory"))
    | Some content => Returns (mkAttachment (Some content) (file_name self))
    end.

(** [Attachment.to_base64]; the outer [None] stands for a loop that outruns
    its fuel. *)
Definition to_base64 (fs : gmap string string) (value : option Attachment)
  : option (outcome (option string)) :=
  match value with
  | None => Some (Returns None)
  | Some value =>
      match data value with
      | Some d => (fun text => Returns (Some text)) <$> base64.encode d
      | None =>
          match file_name value with
          | Some fn =>
              match fs !! fn with
              | None => Some (Raises (Builtin (IOError "No such file or directory")))
              | Some content =>
                  (fun text => Returns (Some text)) <$> base64.encode content
              end
          | None =>
              Some (Raises (Builtin
                      (ValueError "Neither data nor a file_name has been specified")))
          end
      end
  end.

(** [Attachment.from_base64] *)
Definition from_base64 (value : option string) : option (outcome (option Attachment)) :=
  match value with
  | None => Some (Returns None)
  | Some value =>
      match base64.decode value with
      | Some (Returns d) => Some (Returns (Some (mkAttachment (Some d) None)))
      | Some (Raises e) => Some (Raises e)
      | None => None
      end
  end.

End Attachment.

(** [attachment_to_string] *)
Definition attachment_to_string (fs : gmap string string)
    (value : Attachment.Attachment) : result string :=
  match Attachment.data value with
  | Some data => Ok data
  | None =>
      match Attachment.file_name value with
      | Some fn =>
          match fs !! fn with
          | Some content => Ok content
          | None => Raise (IOError "No such file or directory")
          end
      | None => Raise (ValueError "Neither data nor a file_name has been specified")
      end
  end.

(** [attachment_from_string] *)
Definition attachment_from_string (value : string) : Attachment.Attachment :=
  Attachment.mkAttachment (Some value) None.

(** The invariant the constructor of [File.Value] asserts: a [name] is a
    bare file name, a [path] is absolute. *)
Definition Value_ok (v : File.Value) : Prop :=
  (forall n, File.name v = Some n -> os_path.basename n = n) /\
  (forall p, File.path v = Some p -> os_path.isabs p = true).

(** * Properties *)

(** ** Byte strings *)

Lemma string_ind3 (P : string -> Prop) :
  P "" ->
  (forall a, P (String a "")) ->
  (forall a b, P (String a (String b ""))) ->
  (forall a b c s, P s -> P (String a (String b (String c s)))) ->
  forall s, P s.
Proof.
  intros H0 H1 H2 H3.
  assert (Hall : forall s, P s /\ (forall a, P (String a s))
                         /\ (forall a b, P (String a (String b s)))).
  { induction s as [|c s (IH0 & IH1 & IH2)]; [by auto|].
    repeat split; [apply IH1|intros; apply IH2|intros; by apply H3]. }
  intros s. apply Hall.
Qed.

Lemma append_empty (t : string) : "" +:+ t = t.
Proof. reflexivity. Qed.

Lemma append_cons (c : ascii) (s t : string) :
  String c s +:+ t = String c (s +:+ t).
Proof. reflexivity. Qed.

Lemma append_nil_r (s : string) : s +:+ "" = s.
Proof. induction s as [|c s IH]; [done|]. by rewrite append_cons, IH. Qed.

Lemma append_assoc (s t u : string) : (s +:+ t) +:+ u = s +:+ (t +:+ u).
Proof. induction s as [|c s IH]; [done|]. by rewrite !append_cons, IH. Qed.

Lemma bytes_join_cons (x : string) (l : list string) :
  _bytes_join (x :: l) = x +:+ _bytes_join l.
Proof. reflexivity. Qed.

Lemma bytes_join_iter_str (s : string) : _bytes_join (iter_str s) = s.
Proof.
  induction s as [|c s IH]; [done|].
  cbn [iter_str]. by rewrite bytes_join_cons, append_cons, append_empty, IH.
Qed.

Lemma bytes_join_singleton (s : string) : _bytes_join [s] = s.
Proof. rewrite bytes_join_cons. apply append_nil_r. Qed.

Lemma bytes_join_app (l1 l2 : list string) :
  _bytes_join (l1 ++ l2) = _bytes_join l1 +:+ _bytes_join l2.
Proof.
  induction l1 as [|x l1 IH]; [done|].
  cbn [app]. by rewrite !bytes_join_cons, IH, append_assoc.
Qed.

(** ** Hexadecimal *)

Module HexFacts.
Import Hex.

Lemma to_int_hexdigit (n : nibble) : to_int (hexdigit n) = Some n.
Proof. by destruct n as [[] [] [] []]. Qed.

Lemma byte_of_hi_lo (a : ascii) : byte_of (hi a) (lo a) = a.
Proof. by destruct a. Qed.

Lemma odd_length_hexlify (s : string) : odd_length (hexlify s) = false.
Proof.
  induction s as [|a s IH]; [done|].
  cbn [hexlify odd_length]. rewrite IH. done.
Qed.

Lemma unhexlify_pairs_hexlify (s : string) :
  unhexlify_pairs (hexlify s) = Some s.
Proof.
  induction s as [|a s IH]; [done|].
  cbn [hexlify unhexlify_pairs].
  by rewrite !to_int_hexdigit, IH, byte_of_hi_lo.
Qed.

Lemma unhexlify_hexlify (s : string) : unhexlify (hexlify s) = Ok s.
Proof.
  unfold unhexlify. by rewrite odd_length_hexlify, unhexlify_pairs_hexlify.
Qed.

End HexFacts.

(** ** Base64 *)

Module Base64Facts.
Import Base64.

Lemma a2b_b2a (v : sextet) : a2b (b2a v) = Some v.
Proof. by destruct v as [[] [] [] [] [] []]. Qed.

Lemma b2a_not_skipped (v : sextet) : is_skipped (b2a v) = false.
Proof. by destruct v as [[] [] [] [] [] []]. Qed.

Lemma b2a_not_pad (v : sextet) : Ascii.eqb (b2a v) BASE64_PAD = false.
Proof. by destruct v as [[] [] [] [] [] []]. Qed.

Lemma standard_urlsafe_b2a (v : sextet) :
  standard_char (urlsafe_char (b2a v)) = b2a v.
Proof. by destruct v as [[] [] [] [] [] []]. Qed.

Lemma byte1_sextets (a b : ascii) : byte1 (sextet0 a) (sextet1 a b) = a.
Proof. by destruct a, b. Qed.
Lemma byte2_sextets (a b c : ascii) : byte2 (sextet1 a b) (sextet2 b c) = b.
Proof. by destruct a, b, c. Qed.
Lemma byte3_sextets (b c : ascii) : byte3 (sextet2 b c) (sextet3 c) = c.
Proof. by destruct b, c. Qed.

(** One step of the decoder on a character of the alphabet. *)
Lemma loop_b2a (v : sextet) (rest : string) (q : quad) :
  a2b_base64_loop (String (b2a v) rest) q =
  match q with
  | Q0 => a2b_base64_loop rest (Q1 v)
  | Q1 s0 => emit (byte1 s0 v) (a2b_base64_loop rest (Q2 v))
  | Q2 s1 => emit (byte2 s1 v) (a2b_base64_loop rest (Q3 v))
  | Q3 s2 => emit (byte3 s2 v) (a2b_base64_loop rest Q0)
  end.
Proof.
  cbn [a2b_base64_loop].
  by rewrite b2a_not_skipped, b2a_not_pad, a2b_b2a.
Qed.

(** A pad sequence in a legal position ends the input. *)
Lemma loop_pad2 (v : sextet) (rest : string) :
  a2b_base64_loop (String "=" (String "=" rest)) (Q2 v) = Some "".
Proof. reflexivity. Qed.

Lemma loop_pad3 (v : sextet) (rest : string) :
  a2b_base64_loop (String "=" rest) (Q3 v) = Some "".
Proof. reflexivity. Qed.

(** Decoding an encoded string followed by anything: when the encoding
    ends on a pad sequence the rest is dropped, otherwise decoding goes on
    with the rest. *)
Definition prepend (s : string) (r : option string) : option string :=
  String.append s <$> r.

Lemma loop_b64encode (s rest : string) :
  a2b_base64_loop (b64encode s +:+ rest) Q0 =
  if (String.length s mod 3 =? 0)%nat
  then prepend s (a2b_base64_loop rest Q0)
  else Some s.
Proof.
  induction s as [|a|a b|a b c s IH] using string_ind3.
  - cbn [b64encode String.length]. rewrite append_empty. cbn.
    by destruct (a2b_base64_loop rest Q0).
  - cbn [b64encode]. rewrite !append_cons, append_empty, !loop_b2a.
    rewrite loop_pad2. cbn [emit].
    by rewrite byte1_sextets.
  - cbn [b64encode]. rewrite !append_cons, append_empty, !loop_b2a.
    rewrite loop_pad3. cbn [emit].
    by rewrite byte1_sextets, byte2_sextets.
  - cbn [b64encode]. rewrite !append_cons.
    rewrite !loop_b2a, IH, byte1_sextets, byte2_sextets, byte3_sextets.
    replace (String.length (String a (String b (String c s))) mod 3)%nat
      with (String.length s mod 3)%nat.
    2:{ cbn [String.length].
        change (S (S (S (String.length s)))) with (3 + String.length s)%nat.
        rewrite <- (Nat.Div0.add_mod_idemp_l 3). done. }
    destruct (String.length s mod 3 =? 0)%nat; [|done].
    unfold prepend. by destruct (a2b_base64_loop rest Q0).
Qed.

Theorem b64decode_b64encode (s : string) : b64decode (b64encode s) = Ok s.
Proof.
  unfold b64decode.
  rewrite <- (append_nil_r (b64encode s)), loop_b64encode.
  destruct (String.length s mod 3 =? 0)%nat; [|done].
  cbn. by rewrite append_nil_r.
Qed.

(** What follows a padded encoding is lost. *)
Lemma b64decode_padded_prefix (s rest : string) :
  (String.length s mod 3)%nat <> 0%nat ->
  b64decode (b64encode s +:+ rest) = Ok s.
Proof.
  intros Hne. unfold b64decode. rewrite loop_b64encode.
  by destruct (Nat.eqb_spec (String.length s mod 3) 0).
Qed.

Lemma translate_b64encode (s : string) :
  translate standard_char (translate urlsafe_char (b64encode s)) = b64encode s.
Proof.
  induction s as [|a|a b|a b c s IH] using string_ind3;
    cbn [b64encode translate]; rewrite ?standard_urlsafe_b2a, ?IH; done.
Qed.

Theorem urlsafe_b64decode_b64encode (s : string) :
  urlsafe_b64decode (urlsafe_b64encode s) = Ok s.
Proof.
  unfold urlsafe_b64decode, urlsafe_b64encode.
  by rewrite translate_b64encode, b64decode_b64encode.
Qed.

End Base64Facts.



Example b64encode_abc : Base64.b64encode "Man" = "TWFu".
Proof. reflexivity. Qed.
Example b64encode_a : Base64.b64encode "M" = "TQ==".
Proof. reflexivity. Qed.
Example b64decode_a : Base64.b64decode "TQ==TQ==" = Ok "M".
Proof. reflexivity. Qed.
Example b64decode_bad : Base64.b64decode "TQ=" = Raise (TypeError "Incorrect padding").
Proof. reflexivity. Qed.
Example hexlify_12 : Hex.hexlify (String (ascii_of_nat 1) (String (ascii_of_nat 2) "")) = "0102".
Proof. reflexivity. Qed.

(** ** [ByteArray] and the handler tables *)

Lemma from_base64_to_base64 (b : list string) :
  ByteArray.from_base64 (ByteArray.to_base64 b) = Ok [_bytes_join b].
Proof.
  unfold ByteArray.from_base64, ByteArray.to_base64.
  by rewrite bytes_join_iter_str, Base64Facts.b64decode_b64encode.
Qed.

Lemma from_urlsafe_base64_to_urlsafe_base64 (b : list string) :
  ByteArray.from_urlsafe_base64 (ByteArray.to_urlsafe_base64 b) = Ok [_bytes_join b].
Proof.
  unfold ByteArray.from_urlsafe_base64, ByteArray.to_urlsafe_base64.
  by rewrite bytes_join_iter_str, Base64Facts.urlsafe_b64decode_b64encode.
Qed.

Lemma from_hex_to_hex (b : list string) :
  ByteArray.from_hex (ByteArray.to_hex b) = Ok [_bytes_join b].
Proof.
  unfold ByteArray.from_hex, ByteArray.to_hex.
  by rewrite bytes_join_iter_str, HexFacts.unhexlify_hexlify.
Qed.

(** C3: for each of the four variants (raw, hex, base64, URL-safe base64)
    and every sequence of chunks [b], the decoding handler applied to what
    the encoding handler makes of [b] succeeds, and the content of its
    result, concatenated, is the concatenated content of [b]. *)
Theorem binary_roundtrip (k : binary_encoding) (b : list string) :
  k <> BINARY_ENCODING_USE_DEFAULT ->
  exists encode decode out,
    binary_encoding_handlers k = Some encode /\
    binary_decoding_handlers k = Some decode /\
    decode (encode b) = Ok out /\
    _bytes_join out = _bytes_join b.
Proof.
  intros Hk. destruct k; [| | | done |].
  - exists _bytes_join, (fun x => Ok [x]), [_bytes_join b].
    by rewrite bytes_join_singleton.
  - exists ByteArray.to_hex, ByteArray.from_hex, [_bytes_join b].
    by rewrite from_hex_to_hex, bytes_join_singleton.
  - exists ByteArray.to_base64, ByteArray.from_base64, [_bytes_join b].
    by rewrite from_base64_to_base64, bytes_join_singleton.
  - exists ByteArray.to_urlsafe_base64, ByteArray.from_urlsafe_base64, [_bytes_join b].
    by rewrite from_urlsafe_base64_to_urlsafe_base64, bytes_join_singleton.
Qed.

Lemma binary_roundtrip_witness :
  BINARY_ENCODING_HEX <> BINARY_ENCODING_USE_DEFAULT /\
  exists encode decode out,
    binary_encoding_handlers BINARY_ENCODING_HEX = Some encode /\
    binary_decoding_handlers BINARY_ENCODING_HEX = Some decode /\
    decode (encode ["ab"; "c"]) = Ok out /\
    _bytes_join out = _bytes_join ["ab"; "c"].
Proof.
  split; [discriminate|].
  apply (binary_roundtrip BINARY_ENCODING_HEX ["ab"; "c"]). discriminate.
Defined.

Example to_hex_0102 :
  ByteArray.to_hex [String (ascii_of_nat 1) (String (ascii_of_nat 2) "")] = "0102".
Proof. reflexivity. Qed.

Example from_hex_0102 :
  ByteArray.from_hex "0102"
  = Ok [String (ascii_of_nat 1) (String (ascii_of_nat 2) "")].
Proof. reflexivity. Qed.

(** The base64 variant reports every failure as a validation error that
    carries the value. *)
Lemma from_base64_raises (value : string) (e : pyexc) :
  ByteArray.from_base64 value = Raise e -> e = ValidationError value None.
Proof.
  unfold ByteArray.from_base64, Base64.b64decode.
  destruct (Base64.a2b_base64_loop _ _); [done|]. by intros [= <-].
Qed.

(** C5: on malformed input the hex and the URL-safe base64 variants leave
    with the [TypeError] of [binascii]/[base64], which is not a validation
    error and does not carry the value; the base64 variant, on the same
    kind of input, raises [ValidationError] with the value. *)
Theorem malformed_binary_input :
  ByteArray.from_hex "0" = Raise (TypeError "Odd-length string") /\
  ByteArray.from_hex "zz" = Raise (TypeError "Non-hexadecimal digit found") /\
  ByteArray.from_urlsafe_base64 "A" = Raise (TypeError "Incorrect padding") /\
  ByteArray.from_base64 "A" = Raise (ValidationError "A" None) /\
  is_ValidationError (TypeError "Odd-length string") = false.
Proof. repeat split; reflexivity. Qed.

(** ** [File.to_base64] *)

Module FileFacts.
Import File.

Lemma read_append (n : nat) (f : string) :
  fst (read n f) +:+ snd (read n f) = f.
Proof.
  revert f. induction n as [|n IH]; intros [|c f]; try done.
  cbn [read]. specialize (IH f). destruct (read n f) as [d f'].
  cbn [fst snd] in *. by rewrite append_cons, IH.
Qed.

Lemma read_length (n : nat) (f : string) :
  String.length (fst (read n f)) = (n `min` String.length f)%nat.
Proof.
  revert f. induction n as [|n IH]; intros [|c f]; try done.
  cbn [read]. specialize (IH f). destruct (read n f) as [d f'].
  cbn [fst String.length] in *. lia.
Qed.

Lemma read_rest_length (n : nat) (f : string) :
  String.length (snd (read n f)) = (String.length f - n)%nat.
Proof.
  revert f. induction n as [|n IH]; intros [|c f]; try done.
  cbn [read]. specialize (IH f). destruct (read n f) as [d f'].
  cbn [snd String.length] in *. lia.
Qed.

Lemma length_zero (s : string) : String.length s = 0%nat -> s = "".
Proof. by destruct s. Qed.

Lemma read_all (n : nat) (f : string) :
  (String.length f <= n)%nat -> read n f = (f, "").
Proof.
  intros Hle. pose proof (read_append n f) as Happ.
  pose proof (read_rest_length n f) as Hrest.
  destruct (read n f) as [d f']. cbn [fst snd] in *.
  assert (f' = "") as -> by (apply length_zero; lia).
  by rewrite append_nil_r in Happ; subst.
Qed.

Lemma chunk_size_pos : (0 < chunk_size)%nat.
Proof. apply Nat.ltb_lt. by vm_compute. Qed.

(** [0x4000] is a multiple of 4, the size of an encoded group, but not of
    3, the size of the group of bytes that is encoded. *)
Lemma chunk_size_mod_3 : (chunk_size mod 3 = 1)%nat.
Proof. by vm_compute. Qed.

Lemma chunk_size_mod_4 : (chunk_size mod 4 = 0)%nat.
Proof. by vm_compute. Qed.

(** The loop ends: the fuel [to_base64] gives it is enough. *)
Lemma to_base64_loop_fuel (fuel : nat) (data f : string) :
  (data = "" /\ 1 <= fuel)%nat \/ (String.length f + 2 <= fuel)%nat ->
  is_Some (to_base64_loop fuel data f).
Proof.
  revert data f. induction fuel as [|k IH]; intros data f Hfuel; [lia|].
  cbn [to_base64_loop].
  destruct (Nat.ltb_spec 0 (String.length data)) as [Hlen|Hlen]; [|by eexists].
  destruct Hfuel as [[-> _]|Hfuel]; [cbn in Hlen; lia|].
  pose proof (read_length chunk_size f) as Hd.
  pose proof (read_rest_length chunk_size f) as Hf.
  pose proof chunk_size_pos.
  destruct (read chunk_size f) as [data' f']. cbn [fst snd] in *.
  destruct (IH data' f') as [chunks ->]; [|by eexists].
  destruct (decide (String.length f = 0%nat)) as [H0|H0].
  - left. split; [apply length_zero|]; lia.
  - right. lia.
Qed.

(** The first chunk that is yielded encodes the first block read. *)
Lemma to_base64_loop_first (fuel : nat) (data f : string) (chunks : list string) :
  to_base64_loop fuel data f = Some chunks ->
  (0 < String.length data)%nat ->
  exists rest, chunks = Base64.b64encode data :: rest.
Proof.
  destruct fuel as [|k]; [done|]. cbn [to_base64_loop]. intros Hloop Hlen.
  apply Nat.ltb_lt in Hlen. rewrite Hlen in Hloop.
  destruct (read chunk_size f) as [data' f'].
  destruct (to_base64_loop k data' f') as [rest|]; [|discriminate Hloop].
  injection Hloop as <-. by eexists.
Qed.

Lemma to_base64_returns (fs : gmap string string) (v : Value) (p content : string) :
  path v = Some p -> p <> "" -> fs !! p = Some content ->
  exists chunks,
    to_base64 fs (Some v) = Some (Ok chunks) /\
    to_base64_loop (S (String.length content))
      (fst (read chunk_size content)) (snd (read chunk_size content))
    = Some chunks.
Proof.
  intros Hp Hne Hfs. unfold to_base64. rewrite Hp.
  destruct p as [|c p]; [done|]. rewrite Hfs.
  pose proof (read_length chunk_size content) as Hd.
  pose proof (read_rest_length chunk_size content) as Hf.
  pose proof chunk_size_pos.
  destruct (read chunk_size content) as [data f]. cbn [fst snd] in *.
  destruct (to_base64_loop_fuel (S (String.length content)) data f)
    as [chunks Hchunks]; [|rewrite Hchunks; by eexists].
  destruct (decide (String.length content = 0%nat)) as [H0|H0].
  - left. split; [apply length_zero|]; lia.
  - right. lia.
Qed.

(** A file that fits into one chunk comes back whole. *)
Lemma to_base64_single_chunk
    (fs : gmap string string) (v : Value) (p content : string) :
  path v = Some p -> p <> "" -> fs !! p = Some content ->
  (String.length content <= chunk_size)%nat ->
  exists chunks,
    to_base64 fs (Some v) = Some (Ok chunks) /\
    Base64.b64decode (_bytes_join chunks) = Ok content.
Proof.
  intros Hp Hne Hfs Hlen.
  destruct (to_base64_returns fs v p content) as (chunks & -> & Hloop); [done..|].
  exists chunks. split; [done|].
  rewrite (read_all _ _ Hlen) in Hloop. cbn [fst snd to_base64_loop] in Hloop.
  destruct (Nat.ltb_spec 0 (String.length content)) as [Hpos|Hpos].
  - rewrite (read_all chunk_size "") in Hloop by (cbn; lia).
    destruct (String.length content) as [|k]; [lia|].
    cbn in Hloop. injection Hloop as <-.
    by rewrite bytes_join_singleton, Base64Facts.b64decode_b64encode.
  - injection Hloop as <-. assert (content = "") as -> by (apply length_zero; lia).
    done.
Qed.

End FileFacts.

(** C2: [File.to_base64] reads chunks of [0x4000] bytes.  That is a
    multiple of 4 and not of 3, so the encoding of every full chunk ends on
    a pad sequence; for a file longer than one chunk, decoding the
    concatenation of the chunks therefore stops behind the first chunk and
    does not give the file back. *)
Theorem to_base64_loses_data
    (fs : gmap string string) (v : File.Value) (p content : string) :
  File.path v = Some p -> p <> "" -> fs !! p = Some content ->
  (File.chunk_size <? String.length content)%nat = true ->
  exists chunks,
    File.to_base64 fs (Some v) = Some (Ok chunks) /\
    Base64.b64decode (_bytes_join chunks) = Ok (fst (read File.chunk_size content)) /\
    fst (read File.chunk_size content) <> content /\
    (File.chunk_size mod 3)%nat <> 0%nat.
Proof.
  intros Hp Hne Hfs Hlen. apply Nat.ltb_lt in Hlen.
  destruct (FileFacts.to_base64_returns fs v p content) as (chunks & -> & Hloop);
    [done..|].
  exists chunks. split; [done|].
  pose proof (FileFacts.read_length File.chunk_size content) as Hd.
  pose proof FileFacts.chunk_size_pos as Hpos.
  pose proof FileFacts.chunk_size_mod_3 as Hmod.
  destruct (read File.chunk_size content) as [data f]. cbn [fst snd] in *.
  assert (String.length data = File.chunk_size) as Hdata by lia.
  split; [|split; [intros ->; lia|lia]].
  destruct (FileFacts.to_base64_loop_first _ _ _ _ Hloop) as [rest ->]; [lia|].
  rewrite bytes_join_cons. apply Base64Facts.b64decode_padded_prefix.
  by rewrite Hdata, Hmod.
Qed.

Lemma to_base64_loses_data_witness :
  let v := File.mkValue None (Some "/tmp/f") "application/octet-stream" None None in
  let fs : gmap string string := {[ "/tmp/f" := file_0x4001 ]} in
  exists chunks,
    File.to_base64 fs (Some v) = Some (Ok chunks) /\
    Base64.b64decode (_bytes_join chunks)
    = Ok (fst (read File.chunk_size file_0x4001)) /\
    fst (read File.chunk_size file_0x4001) <> file_0x4001 /\
    (File.chunk_size mod 3)%nat <> 0%nat.
Proof.
  intros v fs.
  apply (to_base64_loses_data fs v "/tmp/f" file_0x4001);
    [reflexivity | discriminate | reflexivity | by vm_compute].
Defined.

(** ** [File.Value.rollover] *)

Ltac run_M :=
  unfold mbind, M_bind, mret, M_ret, get, raise, assert,
         File.set_self, File.set_file, modify.

Module RolloverFacts.
Import File.

(** Writing the chunks appends their concatenation to the file. *)
Lemma write_all_spec (p : string) (chunks : list string) (w : world) (acc : string) :
  fs w !! p = Some acc ->
  write_all p chunks w
  = (mkWorld (<[p := acc +:+ _bytes_join chunks]> (fs w)) (self w), Ok tt).
Proof.
  revert w acc.
  induction chunks as [|d chunks IH]; intros [fs0 v] acc Hacc; cbn [fs self] in *.
  - cbn [write_all]. unfold mret, M_ret. f_equal. f_equal.
    change (_bytes_join []) with "". rewrite append_nil_r. by rewrite insert_id.
  - cbn [write_all]. unfold write. run_M. cbn [fs self].
    rewrite Hacc. cbn [default].
    rewrite (IH _ (acc +:+ d)); cbn [fs self]; [|by rewrite lookup_insert_eq].
    by rewrite insert_insert_eq, bytes_join_cons, append_assoc.
Qed.

Section with_mkstemp.

Variable mkstemp : gmap string string -> string.

Ltac finish_rollover :=
  cbn [fs self set_name set_path name path data type handle];
  (erewrite write_all_spec; cbn [fs self]; [|by rewrite lookup_insert_eq]);
  cbn [fs self set_data set_name set_path name path data type handle default];
  by rewrite insert_insert_eq, append_empty.

Lemma rollover_fresh (fs0 : gmap string string) (v : Value) (chunks : list string) :
  data v = Some chunks -> path v = None ->
  rollover mkstemp (mkWorld fs0 v)
  = (mkWorld (<[mkstemp fs0 := _bytes_join chunks]> fs0)
       (mkValue (Some (default (os_path.basename (mkstemp fs0)) (name v)))
                (Some (mkstemp fs0)) (type v) None (handle v)), Ok tt).
Proof.
  destruct v as [n p' t d h]. cbn [name path type data handle]. intros -> ->.
  unfold rollover. run_M.
  destruct n as [n|]; finish_rollover.
Qed.

Lemma rollover_existing
    (fs0 : gmap string string) (v : Value) (chunks : list string) (p : string) :
  data v = Some chunks -> path v = Some p -> os_path.isabs p = true ->
  rollover mkstemp (mkWorld fs0 v)
  = (mkWorld (<[p := _bytes_join chunks]> fs0)
       (mkValue (Some (default (os_path.basename p) (name v)))
                (Some p) (type v) None (handle v)), Ok tt).
Proof.
  destruct v as [n p' t d h]. cbn [name path type data handle]. intros -> -> Habs.
  unfold rollover. run_M. cbn [fs self name path type data handle].
  rewrite Habs. run_M.
  destruct n as [n|]; finish_rollover.
Qed.

Lemma rollover_not_absolute (w : world) (chunks : list string) (p : string) :
  data (self w) = Some chunks -> path (self w) = Some p ->
  os_path.isabs p = false ->
  rollover mkstemp w = (w, Raise (AssertionError "")).
Proof.
  intros Hd Hp Habs. unfold rollover. run_M. by rewrite Hd, Hp, Habs.
Qed.

Lemma rollover_no_data (w : world) :
  data (self w) = None ->
  rollover mkstemp w
  = (w, Raise (TypeError "'NoneType' object is not iterable")).
Proof. intros Hd. unfold rollover. run_M. by rewrite Hd. Qed.

Lemma rollover_clears_data (w w' : world) :
  rollover mkstemp w = (w', Ok tt) -> data (self w') = None.
Proof.
  destruct w as [fs0 v]. intros Hr.
  destruct (data v) as [chunks|] eqn:Hd.
  - destruct (path v) as [p|] eqn:Hp.
    + destruct (os_path.isabs p) eqn:Habs.
      * rewrite (rollover_existing _ _ _ _ Hd Hp Habs) in Hr.
        by injection Hr as <-.
      * by rewrite (rollover_not_absolute _ chunks p) in Hr.
    + rewrite (rollover_fresh _ _ _ Hd Hp) in Hr. by injection Hr as <-.
  - by rewrite rollover_no_data in Hr.
Qed.

End with_mkstemp.

End RolloverFacts.

(** C7: a value constructed with only [data], once rolled over, has as
    [path] the path [mkstemp] allocated (absolute and not in use before, by
    the contract of [mkstemp]), as [name] the non-empty basename of that
    path, no [data] any more, and the file at [path] holds the chunks of
    [data] in order while every other file is as before.  A value whose
    [path] is set is written to that path: no other path of the file system
    changes and [path] stays. *)
Theorem rollover_data_only (mkstemp : gmap string string -> string)
    (fs0 : gmap string string) :
  (forall (ty : string) (chunks : list string) (v : File.Value),
      File.Value_init None None ty (Some chunks) None = Ok v ->
      fs0 !! mkstemp fs0 = None ->
      os_path.isabs (mkstemp fs0) = true ->
      os_path.basename (mkstemp fs0) <> "" ->
      exists w',
        File.rollover mkstemp (File.mkWorld fs0 v) = (w', Ok tt) /\
        File.path (File.self w') = Some (mkstemp fs0) /\
        File.name (File.self w') = Some (os_path.basename (mkstemp fs0)) /\
        File.data (File.self w') = None /\
        File.fs w' !! mkstemp fs0 = Some (_bytes_join chunks) /\
        (forall q, q <> mkstemp fs0 -> File.fs w' !! q = fs0 !! q)) /\
  (forall (v : File.Value) (p : string) (chunks : list string),
      File.path v = Some p ->
      os_path.isabs p = true ->
      File.data v = Some chunks ->
      exists w',
        File.rollover mkstemp (File.mkWorld fs0 v) = (w', Ok tt) /\
        File.path (File.self w') = Some p /\
        File.data (File.self w') = None /\
        File.fs w' = <[p := _bytes_join chunks]> fs0).
Proof.
  split.
  - intros ty chunks v [= <-] Hfresh Habs Hbase.
    eexists. split; [by apply RolloverFacts.rollover_fresh|].
    cbn [File.fs File.self File.path File.name File.data default].
    repeat split; [by rewrite lookup_insert_eq|].
    intros q Hq. by rewrite lookup_insert_ne.
  - intros v p chunks Hp Habs Hd.
    eexists. split; [by apply RolloverFacts.rollover_existing|]. done.
Qed.

Lemma rollover_data_only_witness :
  let mkstemp := fun _ : gmap string string => "/tmp/tmpq7xs2f" in
  let v := File.mkValue None None "application/octet-stream" (Some ["ab"; "cd"]) None in
  exists w',
    File.rollover mkstemp (File.mkWorld ∅ v) = (w', Ok tt) /\
    File.path (File.self w') = Some "/tmp/tmpq7xs2f" /\
    File.name (File.self w') = Some "tmpq7xs2f" /\
    File.data (File.self w') = None /\
    File.fs w' !! "/tmp/tmpq7xs2f" = Some "abcd" /\
    (forall q, q <> "/tmp/tmpq7xs2f" -> File.fs w' !! q = (∅ : gmap string string) !! q).
Proof.
  intros mkstemp v.
  apply (proj1 (rollover_data_only mkstemp ∅)
           "application/octet-stream" ["ab"; "cd"] v);
    [reflexivity | reflexivity | reflexivity | discriminate].
Defined.

(** C10: [rollover] on a value without [data] raises before anything is
    changed (neither the value nor the file system), and since a successful
    [rollover] leaves the value without [data], a second [rollover] right
    after it raises too. *)
Theorem rollover_needs_data (mkstemp : gmap string string -> string) (w : File.world) :
  (File.data (File.self w) = None ->
   File.rollover mkstemp w
   = (w, Raise (TypeError "'NoneType' object is not iterable"))) /\
  (forall w',
      File.rollover mkstemp w = (w', Ok tt) ->
      File.rollover mkstemp w'
      = (w', Raise (TypeError "'NoneType' object is not iterable"))).
Proof.
  split.
  - apply RolloverFacts.rollover_no_data.
  - intros w' Hr. apply RolloverFacts.rollover_no_data.
    by apply (RolloverFacts.rollover_clears_data mkstemp w).
Qed.

Lemma rollover_needs_data_witness :
  let mkstemp := fun _ : gmap string string => "/tmp/tmpq7xs2f" in
  let w := File.mkWorld ∅
             (File.mkValue None None "application/octet-stream" (Some ["ab"; "cd"]) None) in
  let w' := fst (File.rollover mkstemp w) in
  File.rollover mkstemp w = (w', Ok tt) /\
  File.rollover mkstemp w'
  = (w', Raise (TypeError "'NoneType' object is not iterable")).
Proof.
  intros mkstemp w w'.
  assert (Hfirst : File.rollover mkstemp w = (w', Ok tt)) by (vm_compute; reflexivity).
  split; [exact Hfirst|].
  exact (proj2 (rollover_needs_data mkstemp w) w' Hfirst).
Defined.

(** ** [integer_from_string] *)

(** C8: with [max_str_len] declared, a string longer than it is refused
    with a validation error that carries the string, whatever [int] would
    make of it: the parse is not reached. *)
Theorem integer_from_string_too_long
    (int : string -> option Z) (cls : Attributes) (m : Z) (s : string) :
  max_str_len cls = Some m ->
  m < Z.of_nat (String.length s) ->
  integer_from_string int cls s
  = Raise (ValidationError s
             (Some ("Integer %r longer than " +:+ fmt_i m +:+ " characters"))).
Proof.
  intros Hmax Hlen. unfold integer_from_string. rewrite Hmax.
  by destruct (Z.gtb_spec (Z.of_nat (String.length s)) m); [|lia].
Qed.

Lemma integer_from_string_too_long_witness :
  integer_from_string int_decimal (mkAttributes (Some 3) None) "12345"
  = Raise (ValidationError "12345" (Some "Integer %r longer than 3 characters")).
Proof.
  apply (integer_from_string_too_long int_decimal (mkAttributes (Some 3) None) 3 "12345");
    [reflexivity | vm_compute; reflexivity].
Defined.

Example integer_from_string_in_range :
  integer_from_string int_decimal (mkAttributes (Some 3) None) "-45" = Ok (-45).
Proof. reflexivity. Qed.

(** ** [duration_to_string] *)

Module DurationFacts.
Import datetime.

Lemma contains_char_append (c : ascii) (a b : string) :
  contains_char c (a +:+ b) = contains_char c a || contains_char c b.
Proof.
  induction a as [|d a IH]; [done|].
  rewrite append_cons. cbn [contains_char]. rewrite IH. by rewrite orb_assoc.
Qed.

Lemma string_of_uint_no_T (d : Decimal.uint) :
  contains_char "T" (NilEmpty.string_of_uint d) = false.
Proof. induction d; cbn [NilEmpty.string_of_uint contains_char]; by rewrite ?IHd. Qed.

Lemma fmt_i_no_T (n : Z) : has_time_segment (fmt_i n) = false.
Proof.
  unfold has_time_segment, fmt_i, NilZero.string_of_int.
  destruct (Z.to_int n) as [d|d]; unfold NilZero.string_of_uint.
  - destruct d; try apply string_of_uint_no_T; done.
  - cbn [contains_char]. destruct d; try apply string_of_uint_no_T; done.
Qed.

Lemma last_char_append (a b : string) :
  b <> "" -> last_char (a +:+ b) = last_char b.
Proof.
  intros Hb. induction a as [|d a IH]; [done|].
  rewrite append_cons. cbn [last_char]. rewrite IH.
  destruct (a +:+ b) eqn:E; [|done].
  destruct a; [by rewrite append_empty in E|by rewrite append_cons in E].
Qed.

Lemma ends_with_designator_append (a b : string) :
  ends_with_designator b = true -> ends_with_designator (a +:+ b) = true.
Proof.
  intros Hb. unfold ends_with_designator in *.
  rewrite last_char_append; [done|]. by intros ->.
Qed.

Lemma neg_normalized (v : timedelta) :
  normalized v -> days v < 0 ->
  exists v', neg v = Ok v' /\ normalized v' /\ 0 <= days v' /\
             total_microseconds v' = - total_microseconds v.
Proof.
  destruct v as [d s us]. unfold normalized, neg, timedelta_new, total_microseconds.
  cbn [days seconds microseconds]. intros (Hd & Hs & Hus) Hneg.
  set (s1 := - s + - us / 1000000).
  set (d1 := - d + s1 / 86400).
  assert (0 <= d1 <= 999999999) as Hd1 by (subst d1 s1; Z.div_mod_to_equations; lia).
  destruct (Z.gtb_spec (Z.abs d1) 999999999) as [?|_]; [lia|].
  eexists. split; [done|]. cbn [days seconds microseconds].
  subst d1 s1. repeat split; Z.div_mod_to_equations; lia.
Qed.

Lemma pieces_whole_days (v : timedelta) (negative : bool) (k : Z) :
  normalized v -> 0 <= days v -> 0 < k ->
  total_microseconds v = k * 86400 * 1000000 ->
  duration_pieces v negative = sign_of negative +:+ fmt_i k +:+ "D".
Proof.
  destruct v as [d s us]. unfold normalized, total_microseconds.
  cbn [days seconds microseconds]. intros (Hd & Hs & Hus) Hpos Hk Htot.
  assert (us = 0) as -> by lia. assert (s = 0) as -> by lia.
  assert (d = k) as -> by lia.
  unfold duration_pieces, _total_seconds, total_microseconds.
  cbn [days seconds microseconds].
  replace ((k * 86400 + 0) * 1000000 + 0) with (k * (86400 * 1000000)) by lia.
  rewrite Z.mod_mul by lia.
  destruct (Z.eqb_spec k 0) as [?|_]; [lia|].
  destruct (Z.eqb_spec (k * (86400 * 1000000)) 0) as [?|_]; [lia|].
  cbn [negb andb Z.eqb].
  destruct negative; cbn [app sign_of]; rewrite !bytes_join_cons; 
    change (_bytes_join []) with ""; by rewrite append_nil_r.
Qed.

Ltac ends_designator :=
  repeat first [ reflexivity | apply ends_with_designator_append ].

Lemma pieces_time_segment (v : timedelta) (negative : bool) :
  normalized v -> 0 <= days v ->
  (forall k, 0 < k -> total_microseconds v <> k * 86400 * 1000000) ->
  exists day_segment components,
    duration_pieces v negative
    = sign_of negative +:+ day_segment +:+ "T" +:+ components /\
    has_time_segment (sign_of negative +:+ day_segment) = false /\
    ends_with_designator components = true.
Proof.
  destruct v as [d s us]. unfold normalized, total_microseconds.
  cbn [days seconds microseconds]. intros (Hd & Hs & Hus) Hpos Hnot.
  unfold duration_pieces, _total_seconds, total_microseconds.
  cbn [days seconds microseconds].
  set (tot := (d * 86400 + s) * 1000000 + us) in *.
  assert (negb (tot =? 0) && (tot mod (86400 * 1000000) =? 0) && (us =? 0) = false)
    as ->.
  { destruct (Z.eqb_spec tot 0) as [|Hne]; [done|].
    destruct (Z.eqb_spec (tot mod (86400 * 1000000)) 0) as [Hmod|]; [|done].
    exfalso. apply (Hnot (tot / (86400 * 1000000))); subst tot;
      Z.div_mod_to_equations; lia. }
  set (sec := s mod 60). set (mins := (s / 60) mod 60). set (hrs := s / 60 / 60).
  assert (s = hrs * 3600 + mins * 60 + sec /\ 0 <= sec /\ 0 <= mins /\ 0 <= hrs)
    as (Hsplit & Hsec & Hmins & Hhrs)
    by (subst sec mins hrs; Z.div_mod_to_equations; lia).
  exists (if negb (d =? 0) then fmt_i d +:+ "D" else "").
  assert (Hsign : has_time_segment (sign_of negative) = false) by by destruct negative.
  assert (Hpre : has_time_segment
            (sign_of negative +:+ (if negb (d =? 0) then fmt_i d +:+ "D" else ""))
          = false).
  { pose proof (fmt_i_no_T d) as Hfmt.
    unfold has_time_segment in *. rewrite contains_char_append, Hsign.
    destruct (negb (d =? 0)); [|done].
    rewrite contains_char_append. by rewrite Hfmt. }
  assert (Hbase : (if negative then [] ++ ["-P"] else [] ++ ["P"]) = [sign_of negative])
    by by destruct negative.
  rewrite Hbase. clear Hbase.
  destruct (Z.eqb_spec d 0) as [Hd0|Hd0]; cbn [negb] in *;
  destruct (Z.gtb_spec hrs 0) as [Hh|Hh];
  destruct (Z.gtb_spec mins 0) as [Hm|Hm];
  destruct (Z.gtb_spec sec 0) as [Hsc|Hsc];
  destruct (Z.gtb_spec us 0) as [Hu|Hu];
  cbn [orb app length Nat.eqb];
  try (exfalso; apply (Hnot d); subst tot; lia);
  (match goal with
   | |- exists c, _bytes_join (_ :: _ :: "T" :: ?tl) = _ /\ _ => exists (_bytes_join tl)
   | |- exists c, _bytes_join (_ :: "T" :: ?tl) = _ /\ _ => exists (_bytes_join tl)
   end;
   split; [|split; [exact Hpre|]];
   [ rewrite ?bytes_join_cons, ?append_empty; reflexivity
   | rewrite ?bytes_join_cons; change (_bytes_join []) with "";
     rewrite ?append_nil_r, ?append_assoc; ends_designator ]).
Qed.

End DurationFacts.

(** C1: a span whose magnitude is a positive multiple [k] of 86400 seconds,
    with no microseconds, is encoded as the sign and the day segment alone,
    [P<k>D] or [-P<k>D], without a ['T']; every other span (zero among
    them) is encoded with a ['T'] behind the sign and the day segment, and
    what follows the ['T'] ends on one of the designators [H], [M], [S]: at
    least one component is there. *)
Theorem duration_time_segment (value : datetime.timedelta) :
  datetime.normalized value ->
  let sign := sign_of (datetime.days value <? 0) in
  let magnitude := Z.abs (datetime.total_microseconds value) in
  (forall k, 0 < k -> magnitude = k * 86400 * 1000000 ->
     duration_to_string value = Ok (sign +:+ fmt_i k +:+ "D") /\
     has_time_segment (sign +:+ fmt_i k +:+ "D") = false) /\
  ((forall k, 0 < k -> magnitude <> k * 86400 * 1000000) ->
     exists day_segment components,
       duration_to_string value = Ok (sign +:+ day_segment +:+ "T" +:+ components) /\
       has_time_segment (sign +:+ day_segment) = false /\
       ends_with_designator components = true).
Proof.
  intros Hnorm sign magnitude. subst sign magnitude.
  unfold duration_to_string.
  assert (Hsign : forall b, has_time_segment (sign_of b) = false) by by intros [].
  destruct (Z.ltb_spec (datetime.days value) 0) as [Hneg|Hpos].
  - destruct (DurationFacts.neg_normalized value Hnorm Hneg)
      as (value' & -> & Hnorm' & Hpos' & Htot).
    assert (datetime.total_microseconds value < 0) as Hlt.
    { destruct value as [d s us].
      unfold datetime.normalized, datetime.total_microseconds in *.
      cbn [datetime.days datetime.seconds datetime.microseconds] in *. lia. }
    rewrite Z.abs_neq by lia. rewrite <- Htot.
    cbn [mbind result_bind]. split.
    + intros k Hk Hmag.
      rewrite (DurationFacts.pieces_whole_days value' true k) by done.
      split; [done|].
      pose proof (DurationFacts.fmt_i_no_T k) as Hfmt. unfold has_time_segment in *.
      by rewrite !DurationFacts.contains_char_append, Hsign, Hfmt.
    + intros Hnot.
      destruct (DurationFacts.pieces_time_segment value' true Hnorm' Hpos' Hnot)
        as (day_segment & components & -> & Hpre & Hends).
      by exists day_segment, components.
  - assert (0 <= datetime.total_microseconds value) as Hge.
    { destruct value as [d s us].
      unfold datetime.normalized, datetime.total_microseconds in *.
      cbn [datetime.days datetime.seconds datetime.microseconds] in *. lia. }
    rewrite Z.abs_eq by lia. split.
    + intros k Hk Hmag.
      rewrite (DurationFacts.pieces_whole_days value false k) by done.
      split; [done|].
      pose proof (DurationFacts.fmt_i_no_T k) as Hfmt. unfold has_time_segment in *.
      by rewrite !DurationFacts.contains_char_append, Hsign, Hfmt.
    + intros Hnot.
      destruct (DurationFacts.pieces_time_segment value false Hnorm Hpos Hnot)
        as (day_segment & components & -> & Hpre & Hends).
      by exists day_segment, components.
Qed.

Lemma one_day_normalized : datetime.normalized (datetime.mk_timedelta 1 0 0).
Proof. unfold datetime.normalized. cbn. lia. Defined.

Lemma duration_time_segment_witness :
  duration_to_string (datetime.mk_timedelta 1 0 0) = Ok "P1D" /\
  has_time_segment "P1D" = false.
Proof.
  apply (proj1 (duration_time_segment (datetime.mk_timedelta 1 0 0)
                  one_day_normalized) 1); [lia | reflexivity].
Defined.

(** The claim as stated fails at the zero span: zero is a non-negative
    multiple of 86400 seconds without microseconds, and its encoding
    ["PT0S"] has a time segment. *)
Lemma duration_zero_has_time_segment :
  ~ (forall (value : datetime.timedelta) (k : Z),
       datetime.normalized value -> 0 <= k ->
       Z.abs (datetime.total_microseconds value) = k * 86400 * 1000000 ->
       exists s, duration_to_string value = Ok s /\ has_time_segment s = false).
Proof.
  intros H.
  destruct (H (datetime.mk_timedelta 0 0 0) 0) as (s & Hs & HT).
  - unfold datetime.normalized. cbn. lia.
  - lia.
  - reflexivity.
  - vm_compute in Hs. injection Hs as <-. discriminate HT.
Qed.

Example duration_one_day :
  duration_to_string (datetime.mk_timedelta 1 0 0) = Ok "P1D".
Proof. reflexivity. Qed.

Example duration_1h30m :
  duration_to_string (datetime.mk_timedelta 0 5400 0) = Ok "PT1H30M".
Proof. reflexivity. Qed.

Example duration_zero :
  duration_to_string (datetime.mk_timedelta 0 0 0) = Ok "PT0S".
Proof. reflexivity. Qed.

Example duration_minus_one_day :
  duration_to_string (datetime.mk_timedelta (-1) 0 0) = Ok "-P1D".
Proof. reflexivity. Qed.

(** ** The request pipeline *)

Import ServerBase.

Lemma bind_inv {S A B : Type} (m : M S A) (f : A -> M S B) (s s' : S) (r : result B) :
  (m ≫= f) s = (s', r) ->
  (exists s1 a, m s = (s1, Ok a) /\ f a s1 = (s', r)) \/
  (exists e, m s = (s', Raise e) /\ r = Raise e).
Proof.
  unfold mbind, M_bind. destruct (m s) as [s1 [a|e]]; intros H.
  - left. by exists s1, a.
  - right. injection H as <- <-. by exists e.
Qed.

Lemma bind_ok {S A B : Type} (m : M S A) (f : A -> M S B) (s s1 : S) (a : A) :
  m s = (s1, Ok a) -> (m ≫= f) s = f a s1.
Proof. unfold mbind, M_bind. by intros ->. Qed.

Lemma bind_raise {S A B : Type} (m : M S A) (f : A -> M S B) (s s1 : S) (e : pyexc) :
  m s = (s1, Raise e) -> (m ≫= f) s = (s1, Raise e).
Proof. unfold mbind, M_bind. by intros ->. Qed.

Section pipeline_facts.
Context {Doc Obj Y G : Type}.
Variables in_protocol out_protocol : ProtocolBase Doc Obj G.
Variable fire_event : string -> string -> M (MethodContext Doc Obj) unit.
Variable send : G -> Y -> M (MethodContext Doc Obj) G.
Variable throw : G -> pyexc -> M (MethodContext Doc Obj) G.

Abbreviation Ctx := (MethodContext Doc Obj).
Abbreviation World := (world Doc Obj).

(** A failure of the stages is a failure of the first stage, of the second
    behind the first, or of the third behind both. *)
Lemma generate_contexts_stages_raise (cs : option string) (c c1 : Ctx) (e : pyexc) :
  generate_contexts_stages in_protocol cs c = (c1, Raise e) <->
  create_in_document in_protocol cs c = (c1, Raise e) \/
  (exists c', create_in_document in_protocol cs c = (c', Ok tt) /\
     decompose_incoming_envelope in_protocol REQUEST c' = (c1, Raise e)) \/
  (exists c' c'', create_in_document in_protocol cs c = (c', Ok tt) /\
     decompose_incoming_envelope in_protocol REQUEST c' = (c'', Ok tt) /\
     generate_method_contexts in_protocol c'' = (c1, Raise e)).
Proof.
  unfold generate_contexts_stages, mbind, M_bind.
  destruct (create_in_document in_protocol cs c) as [c' [[]|e1]] eqn:H1.
  - destruct (decompose_incoming_envelope in_protocol REQUEST c')
      as [c'' [[]|e2]] eqn:H2.
    + split; [intros H; right; right; by exists c', c''|].
      intros [H|[(x & Hx & Hy)|(x & y & Hx & Hy & Hz)]]; simplify_eq; congruence.
    + split; [intros [= <- <-]; right; left; by exists c'|].
      intros [H|[(x & Hx & Hy)|(x & y & Hx & Hy & Hz)]]; simplify_eq; congruence.
  - split; [intros [= <- <-]; by left|].
    intros [H|[(x & Hx & Hy)|(x & y & Hx & Hy & Hz)]]; simplify_eq; congruence.
Qed.

(** C4: when a stage of [generate_contexts] fails with a [Fault] (validation
    errors are faults), the fault is put into both [in_error] and
    [out_error] of the context, [in_object] is made absent, and the call
    returns exactly that one context instead of raising.  An exception that
    is not a [Fault] is not caught: it leaves [generate_contexts]. *)
Theorem generate_contexts_captures_Fault (cs : option string) (c c1 : Ctx) (e : pyexc) :
  generate_contexts_stages in_protocol cs c = (c1, Raise e) ->
  (is_Fault e = true ->
   let failed := set_out_error (set_in_error (set_in_object c1 None) (Some e)) (Some e) in
   generate_contexts in_protocol cs c = (failed, Ok [failed]) /\
   in_error failed = Some e /\ out_error failed = Some e /\ in_object failed = None) /\
  (is_Fault e = false ->
   generate_contexts in_protocol cs c = (c1, Raise e)).
Proof.
  intros Hst. unfold generate_contexts, try_except_Fault. rewrite Hst.
  split; intros ->; done.
Qed.

Lemma generate_contexts_success (cs : option string) (c c1 : Ctx) (l : list Ctx) :
  generate_contexts_stages in_protocol cs c = (c1, Ok l) ->
  generate_contexts in_protocol cs c = (c1, Ok l).
Proof.
  intros Hst. unfold generate_contexts, try_except_Fault. by rewrite Hst.
Qed.

Lemma lift_fired {A} (m : M Ctx A) (w w' : World) (r : result A) :
  lift m w = (w', r) -> fired w' = fired w.
Proof. unfold lift. destruct (m (ctx w)) as [c r']. by intros [= <- _]. Qed.

Lemma drive_fired (ret : G) (script : list (driver_action Y)) (w w' : World)
    (r : result (coroutine G)) :
  drive send throw ret script w = (w', r) -> fired w' = fired w.
Proof.
  revert ret w. induction script as [|a script IH]; intros ret w.
  - by intros [= <- _].
  - destruct a as [y|e]; cbn [drive].
    + destruct (lift (send ret y) w) as [w1 [ret'|e]] eqn:Hl.
      * intros H. rewrite (IH _ _ H). by apply lift_fired in Hl.
      * intros [= <- _]. by apply lift_fired in Hl.
    + destruct e; try by intros [= <- _].
      destruct (lift (throw ret Break) w) as [w1 [ret'|e]] eqn:Hl.
      * intros [= <- _]. by apply lift_fired in Hl.
      * apply lift_fired in Hl. by destruct e; intros [= <- _].
Qed.

Lemma serialize_stage_fired (script : list (driver_action Y)) (w w' : World)
    (r : result (coroutine G)) :
  serialize_stage out_protocol send throw script w = (w', r) -> fired w' = fired w.
Proof.
  unfold serialize_stage, mbind, M_bind, get.
  destruct (out_document (ctx w)).
  - by intros [= <- _].
  - destruct (lift (serialize out_protocol RESPONSE) w) as [w1 [[|ret]|e]] eqn:Hl;
      apply lift_fired in Hl.
    + by intros [= <- _].
    + intros H. apply drive_fired in H. congruence.
    + by intros [= <- _].
Qed.

Lemma fire_fired (x name : string) (w w' : World) (r : result unit) :
  fire fire_event x name w = (w', r) -> fired w' = fired w ++ [(name, ctx w)].
Proof.
  unfold fire, mbind, M_bind, modify. intros H.
  destruct (lift (fire_event x name) _) as [w1 r1] eqn:Hl.
  apply lift_fired in Hl. cbn [fired] in Hl.
  destruct r1; injection H as <- _; done.
Qed.

Lemma fire_document_event_fired (w w' : World) (r : result unit) :
  fire_document_event fire_event w = (w', r) ->
  fired w' = fired w ++ event_for "document" (ctx w).
Proof.
  unfold fire_document_event, event_for, event_name, mbind, M_bind, get.
  destruct (service_class (ctx w)) as [x|].
  - destruct (out_error (ctx w)); apply fire_fired.
  - intros [= <- _]. by rewrite app_nil_r.
Qed.

Lemma fire_string_event_fired (w w' : World) (r : result unit) :
  fire_string_event fire_event w = (w', r) ->
  fired w' = fired w ++ event_for "string" (ctx w).
Proof.
  unfold fire_string_event, event_for, event_name, mbind, M_bind, get.
  destruct (service_class (ctx w)) as [x|].
  - destruct (out_error (ctx w)); apply fire_fired.
  - intros [= <- _]. by rewrite app_nil_r.
Qed.

Lemma phase_log_event_for (scope : string) (c : Ctx) :
  phase_log scope (event_for scope c).
Proof.
  unfold phase_log, event_for. destruct (service_class c) as [sc|] eqn:Hsc; [|by left].
  right. by exists c, sc.
Qed.

Lemma default_out_string_spec (w : World) :
  default_out_string w = (with_default w, Ok tt).
Proof.
  unfold default_out_string, with_default, mbind, M_bind, get, modify, mret, M_ret.
  by destruct (out_string (ctx w)).
Qed.

Lemma with_default_out_string (w : World) : is_Some (out_string (ctx (with_default w))).
Proof.
  unfold with_default. destruct (out_string (ctx w)) eqn:H; [by rewrite H|]. by eexists.
Qed.

Lemma with_default_fired (w : World) : fired (with_default w) = fired w.
Proof. unfold with_default. by destruct (out_string (ctx w)). Qed.

Lemma get_out_string_unfold (script : list (driver_action Y)) (w : World) :
  get_out_string out_protocol fire_event send throw script w =
  match out_string (ctx w) with
  | Some _ => (w, Ok Done)
  | None =>
      match serialize_stage out_protocol send throw script w with
      | (w0, Ok (Suspended ret)) => (w0, Ok (Suspended ret))
      | (w0, Ok Done) =>
          match output_stages out_protocol fire_event w0 with
          | (w1, Ok _) => (with_default w1, Ok Done)
          | (w1, Raise e) => (w1, Raise e)
          end
      | (w0, Raise e) => (w0, Raise e)
      end
  end.
Proof.
  unfold get_out_string. unfold mbind at 1. unfold M_bind at 1. unfold get at 1.
  destruct (out_string (ctx w)); [done|].
  unfold mbind at 1. unfold M_bind at 1.
  destruct (serialize_stage _ _ _ _ _) as [w0 [[ret|]|e]]; [done| |done].
  unfold mbind at 1. unfold M_bind at 1.
  destruct (output_stages _ _ _) as [w1 [[]|e]]; [|done].
  unfold mbind, M_bind. by rewrite default_out_string_spec.
Qed.

Lemma output_stages_fired (w0 w1 : World) (r : result unit) :
  output_stages out_protocol fire_event w0 = (w1, r) ->
  exists d s,
    fired w1 = fired w0 ++ d ++ s /\
    phase_log "document" d /\ phase_log "string" s /\
    (r = Ok tt ->
     exists wa wb,
       fire_document_event fire_event w0 = (wa, Ok tt) /\
       lift (create_out_string out_protocol) wa = (wb, Ok tt) /\
       d = event_for "document" (ctx w0) /\ s = event_for "string" (ctx wb)).
Proof.
  unfold output_stages. intros H.
  apply bind_inv in H as [(wa & [] & Hdoc & H)|(e & Hdoc & ->)].
  - pose proof (fire_document_event_fired _ _ _ Hdoc) as Hd.
    apply bind_inv in H as [(wb & [] & Hcr & H)|(e & Hcr & ->)].
    + pose proof (lift_fired _ _ _ _ Hcr) as Hb.
      pose proof (fire_string_event_fired _ _ _ H) as Hs.
      exists (event_for "document" (ctx w0)), (event_for "string" (ctx wb)).
      split; [by rewrite Hs, Hb, Hd, app_assoc|].
      split; [apply phase_log_event_for|]. split; [apply phase_log_event_for|].
      intros _. by exists wa, wb.
    + pose proof (lift_fired _ _ _ _ Hcr) as Hb.
      exists (event_for "document" (ctx w0)), [].
      split; [by rewrite Hb, Hd, app_nil_r|].
      split; [apply phase_log_event_for|]. split; [by left|done].
  - pose proof (fire_document_event_fired _ _ _ Hdoc) as Hd.
    exists (event_for "document" (ctx w0)), [].
    split; [by rewrite Hd, app_nil_r|].
    split; [apply phase_log_event_for|]. split; [by left|done].
Qed.

(** C6: whenever [get_out_string] returns, by its early return or by
    running past its last statement, [out_string] is set.  If it was set at
    entry, nothing at all is done and the call returns; if not, the call
    returns exactly when the serialization and the output stages do, and
    [out_string] is then what these stages left, or the single empty chunk
    when they left it unset (a void result, a fault response).  A run that
    an exception leaves is not among these, the [StopIteration] of a
    producer that ends inside [ret.send] included: only [Break] is caught
    around the loop. *)
Theorem get_out_string_sets_out_string (script : list (driver_action Y)) (w : World) :
  (forall s, out_string (ctx w) = Some s ->
     get_out_string out_protocol fire_event send throw script w = (w, Ok Done)) /\
  (forall w',
     get_out_string out_protocol fire_event send throw script w = (w', Ok Done) ->
     is_Some (out_string (ctx w')) /\
     (out_string (ctx w) = None ->
      exists w0 w1,
        serialize_stage out_protocol send throw script w = (w0, Ok Done) /\
        output_stages out_protocol fire_event w0 = (w1, Ok tt) /\
        w' = match out_string (ctx w1) with
             | Some _ => w1
             | None => mkWorld (set_out_string (ctx w1) (Some [""])) (fired w1)
             end)) /\
  (forall w0 w1,
     out_string (ctx w) = None ->
     serialize_stage out_protocol send throw script w = (w0, Ok Done) ->
     output_stages out_protocol fire_event w0 = (w1, Ok tt) ->
     exists w',
       get_out_string out_protocol fire_event send throw script w = (w', Ok Done)).
Proof.
  rewrite get_out_string_unfold. split; [|split].
  - by intros s ->.
  - intros w' H.
    destruct (out_string (ctx w)) eqn:Hout.
    { injection H as <-. rewrite Hout. by split. }
    destruct (serialize_stage _ _ _ _ _) as [w0 [[ret|]|e]]; [done| |done].
    destruct (output_stages _ _ _) as [w1 [[]|e]] eqn:Hos; [|done].
    injection H as <-. split; [apply with_default_out_string|].
    intros _. by exists w0, w1.
  - intros w0 w1 -> -> ->. by eexists.
Qed.


End pipeline_facts.

(** *** Examples on the sample service *)

Lemma generate_contexts_captures_Fault_witness :
  let e := Fault "Client.XMLSyntaxError" "document could not be parsed" in
  let failed :=
    ServerBase.set_out_error
      (ServerBase.set_in_error (ServerBase.set_in_object Sample.request None) (Some e))
      (Some e) in
  ServerBase.generate_contexts (Sample.rejecting_protocol e) None Sample.request
  = (failed, Ok [failed]) /\
  ServerBase.in_error failed = Some e /\
  ServerBase.out_error failed = Some e /\
  ServerBase.in_object failed = None.
Proof.
  intros e failed.
  apply (proj1 (generate_contexts_captures_Fault (Sample.rejecting_protocol e)
                  None Sample.request Sample.request e eq_refl)).
  reflexivity.
Defined.

(** The claim as stated, for every failure, is false: a [ValueError] of the
    first stage leaves [generate_contexts], and the caller gets no context. *)
Lemma generate_contexts_propagates_other :
  ~ (forall (in_protocol : ServerBase.ProtocolBase unit unit nat)
            (cs : option string) (c c1 : ServerBase.MethodContext unit unit)
            (e : pyexc),
       ServerBase.generate_contexts_stages in_protocol cs c = (c1, Raise e) ->
       exists failed,
         ServerBase.generate_contexts in_protocol cs c = (failed, Ok [failed])).
Proof.
  intros H.
  destruct (H (Sample.rejecting_protocol (ValueError "unknown encoding")) None
              Sample.request Sample.request (ValueError "unknown encoding") eq_refl)
    as [failed Hf].
  vm_compute in Hf. discriminate Hf.
Qed.

Lemma get_out_string_sets_out_string_witness :
  let w' := fst (ServerBase.get_out_string Sample.void_protocol Sample.no_handlers
                   Sample.send Sample.throw [] Sample.start) in
  is_Some (ServerBase.out_string (ServerBase.ctx w')).
Proof.
  intros w'.
  assert (Hrun : ServerBase.get_out_string Sample.void_protocol Sample.no_handlers
                   Sample.send Sample.throw [] Sample.start = (w', Ok ServerBase.Done))
    by (vm_compute; reflexivity).
  exact (proj1 (proj1 (proj2 (get_out_string_sets_out_string Sample.void_protocol
                  Sample.no_handlers Sample.send Sample.throw [] Sample.start))
                  w' Hrun)).
Defined.

(** The claim as stated, for every run that its driver sees complete, is
    false.  The sample producer takes two values and returns at the third
    [ret.send]: its [StopIteration] is not caught by [except Break], so it
    ends [get_out_string] the way a return does, with lines 130-149 skipped
    and [out_string] unset. *)
Lemma get_out_string_producer_returns :
  ~ (forall (out_protocol : ServerBase.ProtocolBase unit unit nat)
            (script : list (ServerBase.driver_action unit))
            (w w' : ServerBase.world unit unit)
            (r : result (ServerBase.coroutine nat)),
       ServerBase.get_out_string out_protocol Sample.no_handlers
         Sample.send Sample.throw script w = (w', r) ->
       ServerBase.completed r = true ->
       is_Some (ServerBase.out_string (ServerBase.ctx w'))).
Proof.
  intros H.
  destruct (H Sample.streaming_protocol
              [ServerBase.Send tt; ServerBase.Send tt; ServerBase.Send tt]
              Sample.start Sample.start (Raise StopIteration) eq_refl eq_refl)
    as [s Hs].
  vm_compute in Hs. discriminate Hs.
Qed.

(** The same run in full: no event has fired, and nothing was written. *)
Example get_out_string_producer_ends :
  let script := [ServerBase.Send tt; ServerBase.Send tt; ServerBase.Send tt] in
  let run := ServerBase.get_out_string Sample.streaming_protocol Sample.no_handlers
               Sample.send Sample.throw script Sample.start in
  run = (Sample.start, Raise StopIteration) /\
  ServerBase.completed (snd run) = true /\
  ServerBase.out_string (ServerBase.ctx (fst run)) = None /\
  ServerBase.fired (fst run) = [].
Proof. repeat split. Qed.

Example get_out_string_void :
  ServerBase.out_string
    (ServerBase.ctx
       (fst (ServerBase.get_out_string Sample.void_protocol Sample.no_handlers
               Sample.send Sample.throw [] Sample.start)))
  = Some [""].
Proof. reflexivity. Qed.

(** A streaming producer driven by one value and then [Break]. *)
Example get_out_string_streaming :
  let script := [ServerBase.Send tt; ServerBase.Throw Break] in
  let run := ServerBase.get_out_string Sample.streaming_protocol Sample.no_handlers
               Sample.send Sample.throw script Sample.start in
  snd run = Ok ServerBase.Done /\
  ServerBase.out_string (ServerBase.ctx (fst run)) = Some [""] /\
  map fst (ServerBase.fired (fst run))
  = ["method_return_document"; "method_return_string"].
Proof. repeat split. Qed.

(** A fault response: [out_error] is set, the exception events fire, and
    [out_string] is set all the same. *)
Example get_out_string_fault :
  let e := Fault "Client" "no such method" in
  let w := ServerBase.mkWorld (ServerBase.set_out_error Sample.request (Some e)) [] in
  let run := ServerBase.get_out_string Sample.void_protocol Sample.no_handlers
               Sample.send Sample.throw [] w in
  snd run = Ok ServerBase.Done /\
  ServerBase.out_string (ServerBase.ctx (fst run)) = Some [""] /\
  map fst (ServerBase.fired (fst run))
  = ["method_exception_document"; "method_exception_string"].
Proof. repeat split. Qed.

(** The driver stops sending: the coroutine stays at its [yield]. *)
Example get_out_string_suspended :
  snd (ServerBase.get_out_string Sample.streaming_protocol Sample.no_handlers
         Sample.send Sample.throw [ServerBase.Send tt] Sample.start)
  = Ok (ServerBase.Suspended 1%nat).
Proof. reflexivity. Qed.


Example event_names :
  ServerBase.event_name "document" None = "method_return_document" /\
  ServerBase.event_name "document" (Some Break) = "method_exception_document" /\
  ServerBase.event_name "string" None = "method_return_string" /\
  ServerBase.event_name "string" (Some Break) = "method_exception_string".
Proof. repeat split. Qed.

(** * Further properties *)

Lemma string_length_append (a b : string) :
  String.length (a +:+ b) = (String.length a + String.length b)%nat.
Proof.
  induction a as [|c a IH]; [done|].
  rewrite append_cons. cbn [String.length]. by rewrite IH.
Qed.


(** ** Binary fields through the protocol functions *)

Lemma handlers_roundtrip (k : binary_encoding) (b : list string) :
  k <> BINARY_ENCODING_USE_DEFAULT ->
  exists encode decode,
    binary_encoding_handlers k = Some encode /\
    binary_decoding_handlers k = Some decode /\
    decode (encode b) = Ok [_bytes_join b].
Proof.
  intros Hk. destruct k; [| | | done |]; do 2 eexists; (split; [done|split; [done|]]).
  - done.
  - apply from_hex_to_hex.
  - apply from_base64_to_base64.
  - apply from_urlsafe_base64_to_urlsafe_base64.
Qed.

(** X1: a byte array written by [byte_array_to_string] is read back by
    [byte_array_from_string], under the same field options and the same
    suggestion of the protocol, as one chunk that holds the content of the
    chunks written; this holds whenever the encoding the two resolve is not
    again "use the default". *)
Theorem byte_array_string_roundtrip
    (cls : BinaryAttributes) (suggested_encoding : binary_encoding) (b : list string) :
  (if is_use_default (encoding cls) then suggested_encoding else encoding cls)
    <> BINARY_ENCODING_USE_DEFAULT ->
  exists text,
    byte_array_to_string cls b suggested_encoding = Some text /\
    byte_array_from_string cls text suggested_encoding = Some (Ok [_bytes_join b]).
Proof.
  intros Hk. unfold byte_array_to_string, byte_array_from_string.
  destruct (handlers_roundtrip _ b Hk) as (encode & decode & -> & -> & Hrt).
  exists (encode b). by rewrite Hrt.
Qed.

Lemma byte_array_string_roundtrip_witness :
  exists text,
    byte_array_to_string (mkBinaryAttributes BINARY_ENCODING_USE_DEFAULT) ["ab"; "c"]
      BINARY_ENCODING_BASE64 = Some text /\
    byte_array_from_string (mkBinaryAttributes BINARY_ENCODING_USE_DEFAULT) text
      BINARY_ENCODING_BASE64 = Some (Ok [_bytes_join ["ab"; "c"]]).
Proof.
  apply (byte_array_string_roundtrip (mkBinaryAttributes BINARY_ENCODING_USE_DEFAULT)
           BINARY_ENCODING_BASE64 ["ab"; "c"]).
  discriminate.
Defined.

(** X2: the lookup in the handler dictionaries fails (a [KeyError]) exactly
    when the field defers to the protocol and the suggestion of the protocol
    is "use the default" itself; encoding and decoding fail together. *)
Theorem byte_array_codec_lookup (cls : BinaryAttributes)
    (suggested_encoding : binary_encoding) (b : list string) (text : string) :
  (byte_array_to_string cls b suggested_encoding = None <->
   encoding cls = BINARY_ENCODING_USE_DEFAULT /\
   suggested_encoding = BINARY_ENCODING_USE_DEFAULT) /\
  (byte_array_from_string cls text suggested_encoding = None <->
   byte_array_to_string cls b suggested_encoding = None).
Proof.
  unfold byte_array_to_string, byte_array_from_string.
  destruct cls as [[]], suggested_encoding; cbn; split; split; try done;
    try (by intros [? ?]); try (by intros [= ]).
Qed.

(** X3: [file_from_string] on what [byte_array_to_string] wrote gives a
    value that has neither name, path nor handle, and
    [file_to_string_iterable] hands its content back from memory,
    whatever is on disk. *)
Theorem file_from_string_roundtrip
    (cls : BinaryAttributes) (suggested_encoding : binary_encoding) (b : list string)
    (fs : gmap string string) :
  (if is_use_default (encoding cls) then suggested_encoding else encoding cls)
    <> BINARY_ENCODING_USE_DEFAULT ->
  exists text v,
    byte_array_to_string cls b suggested_encoding = Some text /\
    file_from_string cls text suggested_encoding = Some (Ok v) /\
    File.name v = None /\ File.path v = None /\ File.handle v = None /\
    file_to_string_iterable fs v = Some (Ok [_bytes_join b]).
Proof.
  intros Hk. unfold byte_array_to_string, file_from_string.
  destruct (handlers_roundtrip _ b Hk) as (encode & decode & -> & -> & Hrt).
  exists (encode b). rewrite Hrt. eexists. split; [done|]. split; [reflexivity|].
  done.
Qed.

Lemma file_from_string_roundtrip_witness :
  exists text v,
    byte_array_to_string (mkBinaryAttributes BINARY_ENCODING_HEX) ["ab"; "c"]
      ENCODING_NONE = Some text /\
    file_from_string (mkBinaryAttributes BINARY_ENCODING_HEX) text ENCODING_NONE
    = Some (Ok v) /\
    File.name v = None /\ File.path v = None /\ File.handle v = None /\
    file_to_string_iterable ∅ v = Some (Ok [_bytes_join ["ab"; "c"]]).
Proof.
  apply (file_from_string_roundtrip (mkBinaryAttributes BINARY_ENCODING_HEX)
           ENCODING_NONE ["ab"; "c"] ∅).
  discriminate.
Defined.

(** ** Files read back *)

Module ReadFacts.

Lemma read_empty_rest (n : nat) (g : string) :
  (0 < n)%nat -> fst (read n g) = "" -> snd (read n g) = "".
Proof.
  intros Hn. destruct n as [|n]; [lia|]. destruct g as [|c g]; [done|].
  cbn [read]. by destruct (read n g).
Qed.

Lemma block_size_pos : (0 < Z.to_nat 65536)%nat.
Proof. apply Nat.ltb_lt. by vm_compute. Qed.

Lemma _file_to_iter_loop_spec (fuel : nat) (data f : string) :
  (String.length f + 2 <= fuel)%nat \/ (data = "" /\ 1 <= fuel)%nat ->
  (data = "" -> f = "") ->
  (String.length data <= Z.to_nat 65536)%nat ->
  exists chunks,
    _file_to_iter_loop fuel data f = Some chunks /\
    _bytes_join chunks = data +:+ f /\
    Forall (fun chunk => (0 < String.length chunk <= Z.to_nat 65536)%nat) chunks.
Proof.
  revert data f. induction fuel as [|k IH]; intros data f Hfuel Hinv Hlen; [lia|].
  cbn [_file_to_iter_loop].
  destruct (Nat.ltb_spec 0 (String.length data)) as [Hpos|Hzero].
  - pose proof (FileFacts.read_length (Z.to_nat 65536) f) as Hd.
    pose proof (FileFacts.read_rest_length (Z.to_nat 65536) f) as Hf.
    pose proof (FileFacts.read_append (Z.to_nat 65536) f) as Happ.
    pose proof (read_empty_rest (Z.to_nat 65536) f block_size_pos) as Hempty.
    pose proof block_size_pos as Hn.
    destruct (read (Z.to_nat 65536) f) as [data' f']. cbn [fst snd] in *.
    destruct (IH data' f') as (chunks & -> & Hjoin & Hblocks); [|done|lia|].
    { destruct Hfuel as [Hfuel|[-> _]]; [|cbn in Hpos; lia].
      destruct (decide (String.length f = 0%nat)) as [H0|H0].
      - right. split; [apply FileFacts.length_zero|]; lia.
      - left. lia. }
    eexists. split; [done|]. split.
    + by rewrite bytes_join_cons, Hjoin, Happ.
    + constructor; [lia|done].
  - exists []. split; [done|].
    assert (data = "") as -> by (apply FileFacts.length_zero; lia).
    rewrite (Hinv eq_refl). split; [done|constructor].
Qed.

Lemma _file_to_iter_spec (f : string) :
  exists chunks,
    _file_to_iter f = Some chunks /\
    _bytes_join chunks = f /\
    Forall (fun chunk => (0 < String.length chunk <= Z.to_nat 65536)%nat) chunks.
Proof.
  unfold _file_to_iter.
  pose proof (FileFacts.read_length (Z.to_nat 65536) f) as Hd.
  pose proof (FileFacts.read_rest_length (Z.to_nat 65536) f) as Hf.
  pose proof (FileFacts.read_append (Z.to_nat 65536) f) as Happ.
  pose proof (read_empty_rest (Z.to_nat 65536) f block_size_pos) as Hempty.
  pose proof block_size_pos as Hn.
  destruct (read (Z.to_nat 65536) f) as [data f']. cbn [fst snd] in *.
  destruct (_file_to_iter_loop_spec (S (String.length f)) data f')
    as (chunks & -> & Hjoin & Hblocks); [|done|lia|].
  { destruct (decide (String.length f = 0%nat)) as [H0|H0].
    - right. split; [apply FileFacts.length_zero|]; lia.
    - left. lia. }
  exists chunks. by rewrite Hjoin, Happ.
Qed.

Lemma to_base64_loop_spec (fuel : nat) (data f : string) (chunks : list string) :
  File.to_base64_loop fuel data f = Some chunks ->
  (data = "" -> f = "") ->
  (String.length data <= File.chunk_size)%nat ->
  exists blocks,
    chunks = Base64.b64encode <$> blocks /\
    _bytes_join blocks = data +:+ f /\
    Forall (fun block => (0 < String.length block <= File.chunk_size)%nat) blocks.
Proof.
  revert data f chunks.
  induction fuel as [|k IH]; intros data f chunks Hloop Hinv Hlen; [done|].
  cbn [File.to_base64_loop] in Hloop.
  destruct (Nat.ltb_spec 0 (String.length data)) as [Hpos|Hzero].
  - pose proof (FileFacts.read_length File.chunk_size f) as Hd.
    pose proof (FileFacts.read_append File.chunk_size f) as Happ.
    pose proof (read_empty_rest File.chunk_size f FileFacts.chunk_size_pos) as Hempty.
    destruct (read File.chunk_size f) as [data' f']. cbn [fst snd] in *.
    destruct (File.to_base64_loop k data' f') as [rest|] eqn:Hrest; [|done].
    injection Hloop as <-.
    destruct (IH data' f' rest Hrest) as (blocks & -> & Hjoin & Hblocks); [done|lia|].
    exists (data :: blocks). split; [done|]. split.
    + by rewrite bytes_join_cons, Hjoin, Happ.
    + constructor; [lia|done].
  - injection Hloop as <-. exists []. split; [done|].
    assert (data = "") as -> by (apply FileFacts.length_zero; lia).
    rewrite (Hinv eq_refl). split; [done|constructor].
Qed.

Lemma file_to_string_iterable_on_disk
    (fs : gmap string string) (v : File.Value) (p content : string) :
  File.data v = None -> File.handle v = None ->
  File.path v = Some p -> fs !! p = Some content ->
  exists chunks,
    file_to_string_iterable fs v = Some (Ok chunks) /\
    _bytes_join chunks = content /\
    Forall (fun chunk => (0 < String.length chunk <= Z.to_nat 65536)%nat) chunks.
Proof.
  intros Hd Hh Hp Hfs. unfold file_to_string_iterable. rewrite Hd, Hh, Hp, Hfs.
  destruct (_file_to_iter_spec content) as (chunks & -> & Hjoin & Hblocks).
  by exists chunks.
Qed.

End ReadFacts.

(** X4: for a value whose content is on disk (no [data], no [handle]),
    [file_to_string_iterable] yields the file in order: the chunks
    concatenated are the content of the file, no chunk is empty and none is
    longer than 65536 bytes.  An empty file yields no chunk at all. *)
Theorem file_to_string_iterable_reads_file
    (fs : gmap string string) (v : File.Value) (p content : string) :
  File.data v = None -> File.handle v = None ->
  File.path v = Some p -> fs !! p = Some content ->
  exists chunks,
    file_to_string_iterable fs v = Some (Ok chunks) /\
    _bytes_join chunks = content /\
    Forall (fun chunk => (0 < String.length chunk <= Z.to_nat 65536)%nat) chunks.
Proof. apply ReadFacts.file_to_string_iterable_on_disk. Qed.

Lemma file_to_string_iterable_reads_file_witness :
  let v := File.mkValue None (Some "/tmp/f") "application/octet-stream" None None in
  let fs : gmap string string := {[ "/tmp/f" := "hello" ]} in
  exists chunks,
    file_to_string_iterable fs v = Some (Ok chunks) /\
    _bytes_join chunks = "hello" /\
    Forall (fun chunk => (0 < String.length chunk <= Z.to_nat 65536)%nat) chunks.
Proof.
  intros v fs.
  apply (file_to_string_iterable_reads_file fs v "/tmp/f" "hello"); reflexivity.
Defined.

(** X5: [File.to_base64] yields one chunk for each block of at most
    [0x4000] bytes of the file, none for an empty file; each chunk, decoded
    on its own, gives its block back, and the blocks in order are the
    content of the file. *)
Theorem to_base64_chunkwise
    (fs : gmap string string) (v : File.Value) (p content : string) :
  File.path v = Some p -> p <> "" -> fs !! p = Some content ->
  exists chunks blocks,
    File.to_base64 fs (Some v) = Some (Ok chunks) /\
    Forall2 (fun chunk block => Base64.b64decode chunk = Ok block) chunks blocks /\
    _bytes_join blocks = content /\
    Forall (fun block => (0 < String.length block <= File.chunk_size)%nat) blocks.
Proof.
  intros Hp Hne Hfs.
  destruct (FileFacts.to_base64_returns fs v p content Hp Hne Hfs)
    as (chunks & Hto & Hloop).
  pose proof (FileFacts.read_length File.chunk_size content) as Hd.
  pose proof (FileFacts.read_append File.chunk_size content) as Happ.
  pose proof (ReadFacts.read_empty_rest File.chunk_size content
                FileFacts.chunk_size_pos) as Hempty.
  destruct (read File.chunk_size content) as [data f]. cbn [fst snd] in *.
  destruct (ReadFacts.to_base64_loop_spec _ _ _ _ Hloop)
    as (blocks & -> & Hjoin & Hblocks); [done|lia|].
  exists (Base64.b64encode <$> blocks), blocks.
  split; [done|]. split; [|by rewrite Hjoin, Happ].
  clear. induction blocks as [|b blocks IH]; constructor;
    [apply Base64Facts.b64decode_b64encode|done].
Qed.

Lemma to_base64_chunkwise_witness :
  let v := File.mkValue None (Some "/tmp/f") "application/octet-stream" None None in
  let fs : gmap string string := {[ "/tmp/f" := file_0x4001 ]} in
  exists chunks blocks,
    File.to_base64 fs (Some v) = Some (Ok chunks) /\
    Forall2 (fun chunk block => Base64.b64decode chunk = Ok block) chunks blocks /\
    _bytes_join blocks = file_0x4001 /\
    Forall (fun block => (0 < String.length block <= File.chunk_size)%nat) blocks.
Proof.
  intros v fs.
  apply (to_base64_chunkwise fs v "/tmp/f" file_0x4001);
    [reflexivity | discriminate | reflexivity].
Defined.

(** X6: a value without a [handle] that holds [data], once rolled over, is
    read back by [file_to_string_iterable] from the file it was written to,
    and what is read is the content of [data]. *)
Theorem rollover_then_read (mkstemp : gmap string string -> string)
    (fs0 : gmap string string) (v : File.Value) (chunks : list string) :
  File.data v = Some chunks -> File.handle v = None ->
  (forall p, File.path v = Some p -> os_path.isabs p = true) ->
  exists w' out,
    File.rollover mkstemp (File.mkWorld fs0 v) = (w', Ok tt) /\
    file_to_string_iterable (File.fs w') (File.self w') = Some (Ok out) /\
    _bytes_join out = _bytes_join chunks.
Proof.
  intros Hd Hh Habs.
  destruct (File.path v) as [p|] eqn:Hp.
  - eexists. 
    rewrite (RolloverFacts.rollover_existing mkstemp fs0 v chunks p Hd Hp (Habs p eq_refl)).
    destruct (ReadFacts.file_to_string_iterable_on_disk
                (<[p := _bytes_join chunks]> fs0)
                (File.mkValue (Some (default (os_path.basename p) (File.name v)))
                   (Some p) (File.type v) None (File.handle v))
                p (_bytes_join chunks))
      as (out & Hout & Hjoin & _); [done|done|done|by rewrite lookup_insert_eq|].
    by exists out.
  - eexists.
    rewrite (RolloverFacts.rollover_fresh mkstemp fs0 v chunks Hd Hp).
    destruct (ReadFacts.file_to_string_iterable_on_disk
                (<[mkstemp fs0 := _bytes_join chunks]> fs0)
                (File.mkValue
                   (Some (default (os_path.basename (mkstemp fs0)) (File.name v)))
                   (Some (mkstemp fs0)) (File.type v) None (File.handle v))
                (mkstemp fs0) (_bytes_join chunks))
      as (out & Hout & Hjoin & _); [done|done|done|by rewrite lookup_insert_eq|].
    by exists out.
Qed.

Lemma rollover_then_read_witness :
  let mkstemp := fun _ : gmap string string => "/tmp/tmpq7xs2f" in
  let v := File.mkValue None None "application/octet-stream" (Some ["ab"; "cd"]) None in
  exists w' out,
    File.rollover mkstemp (File.mkWorld ∅ v) = (w', Ok tt) /\
    file_to_string_iterable (File.fs w') (File.self w') = Some (Ok out) /\
    _bytes_join out = _bytes_join ["ab"; "cd"].
Proof.
  intros mkstemp v.
  apply (rollover_then_read mkstemp ∅ v ["ab"; "cd"]); [reflexivity | reflexivity |].
  intros p Hp. discriminate Hp.
Defined.

(** ** [File.from_base64] *)

(** X19: for a file that fits into one chunk, [File.from_base64] on the
    joined output of [File.to_base64] gives a value that holds the content
    of the file as a single chunk in memory, without name, path or handle. *)
Theorem file_base64_roundtrip_one_chunk
    (fs : gmap string string) (v : File.Value) (p content : string) :
  File.path v = Some p -> p <> "" -> fs !! p = Some content ->
  (String.length content <=? File.chunk_size)%nat = true ->
  exists chunks,
    File.to_base64 fs (Some v) = Some (Ok chunks) /\
    File.from_base64 (Some (_bytes_join chunks))
    = Ok (Some (File.mkValue None None "application/octet-stream"
                  (Some [content]) None)).
Proof.
  intros Hp Hne Hfs Hlen. apply Nat.leb_le in Hlen.
  destruct (FileFacts.to_base64_single_chunk fs v p content Hp Hne Hfs Hlen)
    as (chunks & Hto & Hdec).
  exists chunks. split; [done|]. unfold File.from_base64. by rewrite Hdec.
Qed.

Lemma file_base64_roundtrip_one_chunk_witness :
  let v := File.mkValue None (Some "/tmp/f") "application/octet-stream" None None in
  let fs : gmap string string := {[ "/tmp/f" := "hello" ]} in
  exists chunks,
    File.to_base64 fs (Some v) = Some (Ok chunks) /\
    File.from_base64 (Some (_bytes_join chunks))
    = Ok (Some (File.mkValue None None "application/octet-stream"
                  (Some ["hello"]) None)).
Proof.
  intros v fs.
  apply (file_base64_roundtrip_one_chunk fs v "/tmp/f" "hello");
    [reflexivity | discriminate | reflexivity | by vm_compute].
Defined.


Module PathFacts.
Import os_path.

Lemma basename_no_sep (p : string) : has_sep (basename p) = false.
Proof.
  induction p as [|c p IH]; [done|].
  cbn [basename]. destruct (Ascii.eqb c "/" || has_sep p) eqn:E; [done|].
  cbn [has_sep]. done.
Qed.

Lemma basename_bare (n : string) : has_sep n = false -> basename n = n.
Proof.
  destruct n as [|c n]; [done|]. cbn [has_sep basename]. by intros ->.
Qed.

Lemma basename_idemp (p : string) : basename (basename p) = basename p.
Proof. apply basename_bare, basename_no_sep. Qed.

End PathFacts.

(** X7: [rollover] keeps what the constructor of [File.Value] asserts: if
    the name was a bare file name and the path absolute (and [mkstemp]
    hands out absolute paths), they still are after a successful
    [rollover], and both are set then. *)
Theorem rollover_keeps_Value_ok (mkstemp : gmap string string -> string)
    (w w' : File.world) :
  Value_ok (File.self w) ->
  (File.path (File.self w) = None -> os_path.isabs (mkstemp (File.fs w)) = true) ->
  File.rollover mkstemp w = (w', Ok tt) ->
  Value_ok (File.self w') /\
  (exists n, File.name (File.self w') = Some n) /\
  (exists p, File.path (File.self w') = Some p).
Proof.
  destruct w as [fs0 v]. cbn [File.fs File.self]. intros [Hname Hpath] Hmk Hr.
  destruct (File.data v) as [chunks|] eqn:Hd.
  2:{ by rewrite RolloverFacts.rollover_no_data in Hr. }
  assert (Hn : forall p, os_path.basename
             (default (os_path.basename p) (File.name v))
           = default (os_path.basename p) (File.name v)).
  { intros p. destruct (File.name v) as [n|] eqn:Hnm; cbn [default].
    - by apply Hname. - apply PathFacts.basename_idemp. }
  destruct (File.path v) as [p|] eqn:Hp.
  - destruct (os_path.isabs p) eqn:Habs.
    2:{ by rewrite (RolloverFacts.rollover_not_absolute _ _ chunks p) in Hr. }
    rewrite (RolloverFacts.rollover_existing _ _ _ _ _ Hd Hp Habs) in Hr.
    injection Hr as <-. cbn [File.self File.name File.path].
    split; [split|split; eauto].
    + intros n [= <-]. apply Hn.
    + by intros q [= <-].
  - rewrite (RolloverFacts.rollover_fresh _ _ _ _ Hd Hp) in Hr.
    injection Hr as <-. cbn [File.self File.name File.path].
    split; [split|split; eauto].
    + intros n [= <-]. apply Hn.
    + intros q [= <-]. by apply Hmk.
Qed.

Lemma rollover_keeps_Value_ok_witness :
  let mkstemp := fun _ : gmap string string => "/tmp/tmpq7xs2f" in
  let w := File.mkWorld ∅
             (File.mkValue None None "application/octet-stream" (Some ["ab"; "cd"]) None) in
  let w' := fst (File.rollover mkstemp w) in
  Value_ok (File.self w') /\
  (exists n, File.name (File.self w') = Some n) /\
  (exists p, File.path (File.self w') = Some p).
Proof.
  intros mkstemp w w'.
  apply (rollover_keeps_Value_ok mkstemp w w').
  - split; intros x Hx; discriminate Hx.
  - reflexivity.
  - vm_compute. reflexivity.
Defined.

(** ** Booleans and integers *)

Lemma lower_char_idemp (c : ascii) : lower_char (lower_char c) = lower_char c.
Proof. destruct c as [[] [] [] [] [] [] [] []]; reflexivity. Qed.

Lemma lower_idemp (s : string) : lower (lower s) = lower s.
Proof.
  induction s as [|c s IH]; [done|]. cbn [lower]. by rewrite lower_char_idemp, IH.
Qed.

(** X8: a boolean written by [boolean_to_string] is read back by
    [boolean_from_string]; reading does not depend on the case of the
    letters, and it gives true exactly for the spellings of ["true"] and
    for ["1"], false for every other string. *)
Theorem boolean_string_roundtrip :
  (forall b : bool, boolean_from_string (boolean_to_string b) = b) /\
  (forall s : string, boolean_from_string (lower s) = boolean_from_string s) /\
  (forall s : string,
     boolean_from_string s = true <-> lower s = "true" \/ s = "1").
Proof.
  split; [by intros []|]. split.
  - intros s. unfold boolean_from_string. by rewrite lower_idemp.
  - intros s. unfold boolean_from_string. rewrite bool_decide_eq_true.
    rewrite !elem_of_cons, elem_of_nil.
    split.
    + intros [H|[H|[]]]; [by left|right].
      destruct s as [|c [|d s]]; try done.
      cbn [lower] in H. injection H as H.
      revert H. destruct c as [[] [] [] [] [] [] [] []]; by vm_compute.
    + intros [H| ->]; [by left|right; by left].
Qed.

Module IntegerFacts.

Lemma digits_value_acc (d : Decimal.uint) (acc : positive) :
  digits_value (NilEmpty.string_of_uint d) (Z.pos acc)
  = Some (Z.pos (Pos.of_uint_acc d acc)).
Proof.
  revert acc. induction d; intros acc;
    cbn [NilEmpty.string_of_uint digits_value Pos.of_uint_acc]; try done;
    match goal with
    | |- context [digits_value _ ?z] =>
        match goal with
        | |- context [Pos.of_uint_acc _ ?q] =>
            replace z with (Z.pos q) by (vm_compute Z.of_nat; lia)
        end
    end; apply IHd.
Qed.

Lemma digits_value_uint (d : Decimal.uint) :
  digits_value (NilEmpty.string_of_uint d) 0 = Some (Z.of_N (Pos.of_uint d)).
Proof.
  induction d; cbn [NilEmpty.string_of_uint digits_value Pos.of_uint]; try done;
    try apply (digits_value_acc d).
Qed.

Lemma int_decimal_fmt_i (n : Z) : int_decimal (fmt_i n) = Some n.
Proof.
  unfold fmt_i, NilZero.string_of_int. destruct n as [|p|p]; cbn [Z.to_int].
  - reflexivity.
  - unfold NilZero.string_of_uint.
    pose proof (DecimalPos.Unsigned.to_uint_nonnil p) as Hnil.
    pose proof (DecimalPos.Unsigned.of_to p) as Hof.
    pose proof (digits_value_uint (Pos.to_uint p)) as Hdig.
    rewrite Hof in Hdig. cbn [Z.of_N] in Hdig.
    destruct (Pos.to_uint p) as [|d|d|d|d|d|d|d|d|d|d]; [done|..];
      cbn [NilEmpty.string_of_uint] in *; unfold int_decimal;
      cbn [Ascii.eqb Bool.eqb]; exact Hdig.
  - unfold NilZero.string_of_uint.
    pose proof (DecimalPos.Unsigned.to_uint_nonnil p) as Hnil.
    pose proof (DecimalPos.Unsigned.of_to p) as Hof.
    pose proof (digits_value_uint (Pos.to_uint p)) as Hdig.
    rewrite Hof in Hdig. cbn [Z.of_N] in Hdig.
    unfold int_decimal. cbn [Ascii.eqb Bool.eqb].
    destruct (Pos.to_uint p) as [|d|d|d|d|d|d|d|d|d|d]; [done|..];
      cbn [NilEmpty.string_of_uint] in *; by rewrite Hdig.
Qed.

End IntegerFacts.

(** X9: without a format, an integer written by [integer_to_string] is read
    back by [integer_from_string] (with [int] reading decimal literals),
    provided its decimal form is not longer than a declared [max_str_len]. *)
Theorem integer_string_roundtrip (percent : string -> Z -> string)
    (cls : Attributes) (n : Z) :
  format cls = None ->
  (forall m, max_str_len cls = Some m ->
             Z.of_nat (String.length (fmt_i n)) <= m) ->
  integer_from_string int_decimal cls (integer_to_string percent cls n) = Ok n.
Proof.
  intros Hfmt Hlen. unfold integer_to_string, integer_from_string, integer_cast.
  rewrite Hfmt, IntegerFacts.int_decimal_fmt_i.
  destruct (max_str_len cls) as [m|]; [|done].
  specialize (Hlen m eq_refl).
  by destruct (Z.gtb_spec (Z.of_nat (String.length (fmt_i n))) m); [lia|].
Qed.

Lemma integer_string_roundtrip_witness :
  integer_from_string int_decimal (mkAttributes (Some 3) None)
    (integer_to_string (fun _ n => fmt_i n) (mkAttributes (Some 3) None) (-45))
  = Ok (-45).
Proof.
  apply (integer_string_roundtrip (fun _ n => fmt_i n)
           (mkAttributes (Some 3) None) (-45)); [reflexivity|].
  intros m [= <-]. vm_compute. discriminate.
Defined.

(** X10: whatever [int] does, a failure of [integer_from_string] is a
    validation error that carries the input string and a message. *)
Theorem integer_from_string_raises (int : string -> option Z)
    (cls : Attributes) (s : string) (e : pyexc) :
  integer_from_string int cls s = Raise e ->
  exists msg, e = ValidationError s (Some msg).
Proof.
  unfold integer_from_string, integer_cast.
  destruct (max_str_len cls) as [m|];
    [destruct (Z.of_nat (String.length s) >? m)|];
    destruct (int s); intros [= <-]; by eexists.
Qed.

Lemma integer_from_string_raises_witness :
  exists msg,
    ValidationError "4x" (Some "Could not cast %r to integer")
    = ValidationError "4x" (Some msg).
Proof.
  apply (integer_from_string_raises int_decimal (mkAttributes None None) "4x").
  reflexivity.
Defined.

(** ** Durations of negative spans *)

Lemma duration_pieces_sign (v : datetime.timedelta) :
  duration_pieces v true = String "-" (duration_pieces v false).
Proof.
  unfold duration_pieces.
  repeat match goal with
         | |- context [if ?b then _ else _] =>
             lazymatch b with
             | Nat.eqb _ _ => fail
             | _ => destruct b
             end
         end;
    reflexivity.
Qed.

(** X11: a normalized negative span can always be negated (no overflow),
    and its encoding is ["-"] followed by the encoding of the negated,
    positive span. *)
Theorem duration_negative_span (value : datetime.timedelta) :
  datetime.normalized value -> datetime.days value < 0 ->
  exists value' s,
    datetime.neg value = Ok value' /\
    datetime.normalized value' /\
    datetime.total_microseconds value' = - datetime.total_microseconds value /\
    duration_to_string value' = Ok s /\
    duration_to_string value = Ok (String "-" s).
Proof.
  intros Hnorm Hneg.
  destruct (DurationFacts.neg_normalized value Hnorm Hneg)
    as (value' & Hv & Hnorm' & Hpos & Htot).
  exists value', (duration_pieces value' false).
  unfold duration_to_string. rewrite Hv.
  destruct (Z.ltb_spec (datetime.days value') 0) as [?|_]; [lia|].
  destruct (Z.ltb_spec (datetime.days value) 0) as [_|?]; [|lia].
  cbn [mbind result_bind]. by rewrite duration_pieces_sign.
Qed.

Lemma minus_90_minutes_normalized :
  datetime.normalized (datetime.mk_timedelta (-1) 81000 0).
Proof. unfold datetime.normalized. cbn. lia. Defined.

Lemma duration_negative_span_witness :
  exists value' s,
    datetime.neg (datetime.mk_timedelta (-1) 81000 0) = Ok value' /\
    datetime.normalized value' /\
    datetime.total_microseconds value'
    = - datetime.total_microseconds (datetime.mk_timedelta (-1) 81000 0) /\
    duration_to_string value' = Ok s /\
    duration_to_string (datetime.mk_timedelta (-1) 81000 0) = Ok (String "-" s).
Proof.
  apply (duration_negative_span (datetime.mk_timedelta (-1) 81000 0)
           minus_90_minutes_normalized).
  reflexivity.
Defined.

Example duration_minus_90_minutes :
  duration_to_string (datetime.mk_timedelta (-1) 81000 0) = Ok "-PT1H30M".
Proof. reflexivity. Qed.

(** ** [Attachment] *)

Module StreamFacts.
Import base64.

Lemma b2a_not_LF (v : Base64.sextet) : Ascii.eqb (Base64.b2a v) LF = false.
Proof. by destruct v as [[] [] [] [] [] []]. Qed.

Lemma readline_cons (c : ascii) (rest : string) :
  Ascii.eqb c LF = false ->
  readline (String c rest) = (String c (fst (readline rest)), snd (readline rest)).
Proof. intros H. cbn [readline]. rewrite H. by destruct (readline rest). Qed.

Lemma readline_LF (rest : string) : readline (String LF rest) = (String LF "", rest).
Proof. reflexivity. Qed.

(** An encoded line comes back from [readline] as it was written. *)
Lemma readline_b2a_base64 (s rest : string) :
  readline (b2a_base64 s +:+ rest) = (b2a_base64 s, rest).
Proof.
  unfold b2a_base64. rewrite append_assoc, append_cons, append_empty.
  induction s as [|a|a b|a b c s IH] using string_ind3;
    cbn [Base64.b64encode]; rewrite ?append_cons, ?append_empty;
    repeat (rewrite readline_cons by (apply b2a_not_LF || reflexivity);
            cbn [fst snd]);
    rewrite ?readline_LF, ?IH; reflexivity.
Qed.

Lemma b2a_base64_nonempty (s : string) : b2a_base64 s <> "".
Proof.
  unfold b2a_base64. destruct (Base64.b64encode s); by rewrite ?append_cons, ?append_empty.
Qed.

(** Decoding one line gives the block back. *)
Lemma a2b_b2a_base64 (s : string) :
  Base64.a2b_base64_loop (b2a_base64 s) Base64.Q0 = Some s.
Proof.
  unfold b2a_base64. rewrite Base64Facts.loop_b64encode.
  destruct (String.length s mod 3 =? 0)%nat; [|done].
  change (Base64.a2b_base64_loop (String LF "") Base64.Q0) with (Some "").
  unfold Base64.prepend. cbn. by rewrite append_nil_r.
Qed.

Lemma MAXBINSIZE_pos : (0 < MAXBINSIZE)%nat.
Proof. vm_compute. lia. Qed.

(** On a file or a string buffer a short read is the end of the input, so
    the inner loop of [encode] has nothing to add. *)
Lemma encode_fill_short (fuel : nat) (s input : string) :
  ((String.length s < MAXBINSIZE)%nat -> input = "") ->
  encode_fill fuel s input = (s, input).
Proof.
  intros Hshort. destruct fuel as [|k]; [done|]. cbn [encode_fill].
  destruct (Nat.ltb_spec (String.length s) MAXBINSIZE) as [Hlt|]; [|done].
  rewrite (Hshort Hlt). by destruct (MAXBINSIZE - String.length s)%nat.
Qed.

Lemma encode_decode_loop (fuel : nat) (input : string) :
  (String.length input < fuel)%nat ->
  exists text,
    encode_loop fuel input = Some text /\
    (forall fuel', (String.length text < fuel')%nat ->
                   decode_loop fuel' text = Some (Returns input)) /\
    Base64.b64decode text = Ok input.
Proof.
  revert input. induction fuel as [|k IH]; intros input Hfuel; [lia|].
  cbn [encode_loop].
  pose proof (FileFacts.read_length MAXBINSIZE input) as Hd.
  pose proof (FileFacts.read_rest_length MAXBINSIZE input) as Hf.
  pose proof (FileFacts.read_append MAXBINSIZE input) as Happ.
  pose proof MAXBINSIZE_pos as Hn.
  destruct (read MAXBINSIZE input) as [s rest]. cbn [fst snd] in *.
  destruct s as [|c s].
  { cbn [String.length] in Hd. assert (input = "") as -> by (apply FileFacts.length_zero; lia).
    exists "". split; [done|]. split; [|done].
    intros [|fuel'] ?; [lia|done]. }
  set (block := String c s) in *.
  rewrite (encode_fill_short MAXBINSIZE block rest).
  2:{ intros Hlt. apply FileFacts.length_zero. lia. }
  destruct (IH rest) as (text & -> & Hdec & Hone).
  { subst block. cbn [String.length] in Hd. lia. }
  exists (b2a_base64 block +:+ text). split; [done|]. split.
  - intros [|fuel'] Hfuel'; [lia|]. cbn [decode_loop].
    rewrite readline_b2a_base64.
    assert (String.length text < fuel')%nat as Hrest.
    { rewrite string_length_append in Hfuel'.
      pose proof (b2a_base64_nonempty block) as Hne.
      destruct (b2a_base64 block); [done|]. cbn [String.length] in Hfuel'. lia. }
    rewrite (Hdec fuel' Hrest).
    destruct (b2a_base64 block) as [|l0 line] eqn:Hline;
      [by apply b2a_base64_nonempty in Hline|].
    rewrite <- Hline, a2b_b2a_base64. by rewrite Happ.
  - unfold Base64.b64decode, b2a_base64 in *.
    rewrite append_assoc, Base64Facts.loop_b64encode.
    rewrite append_cons, append_empty.
    change (Base64.a2b_base64_loop (String LF text) Base64.Q0)
      with (Base64.a2b_base64_loop text Base64.Q0).
    destruct (Nat.eqb_spec (String.length block mod 3) 0) as [Hmod|Hmod].
    + destruct (Base64.a2b_base64_loop text Base64.Q0) as [r|]; [|done].
      injection Hone as ->. cbn. by rewrite Happ.
    + (* a padded block is the last one *)
      assert (rest = "") as Hrest.
      { apply FileFacts.length_zero.
        destruct (decide (String.length block = MAXBINSIZE)) as [E|E]; [|lia].
        exfalso. apply Hmod. rewrite E. by vm_compute. }
      subst rest. by rewrite append_nil_r in Happ; subst.
Qed.

End StreamFacts.

(** X12: the text [Attachment.to_base64] makes of an attachment, whether
    its content is in [data] or in the file [file_name], is decoded by
    [Attachment.from_base64] into an attachment that holds the content (and
    no file name); the one-shot decoder [ByteArray.from_base64] gives the
    content too, as the lines encode blocks of 57 bytes, a multiple of 3. *)
Theorem attachment_base64_roundtrip (fs : gmap string string)
    (value : Attachment.Attachment) (d : string) :
  Attachment.data value = Some d \/
  (Attachment.data value = None /\
   exists fn, Attachment.file_name value = Some fn /\ fs !! fn = Some d) ->
  exists text,
    Attachment.to_base64 fs (Some value) = Some (Returns (Some text)) /\
    Attachment.from_base64 (Some text)
    = Some (Returns (Some (Attachment.mkAttachment (Some d) None))) /\
    ByteArray.from_base64 text = Ok [d].
Proof.
  intros Hsrc.
  destruct (StreamFacts.encode_decode_loop (S (String.length d)) d)
    as (text & Henc & Hdec & Hone); [lia|].
  exists text.
  assert (Attachment.to_base64 fs (Some value) = Some (Returns (Some text))) as ->.
  { unfold Attachment.to_base64, base64.encode.
    destruct Hsrc as [-> | (-> & fn & -> & ->)]; by rewrite Henc. }
  split; [done|]. split.
  - unfold Attachment.from_base64, base64.decode. by rewrite Hdec by lia.
  - unfold ByteArray.from_base64. by rewrite bytes_join_iter_str, Hone.
Qed.

Lemma attachment_base64_roundtrip_witness :
  exists text,
    Attachment.to_base64 ∅ (Some (Attachment.mkAttachment (Some "hello") None))
    = Some (Returns (Some text)) /\
    Attachment.from_base64 (Some text)
    = Some (Returns (Some (Attachment.mkAttachment (Some "hello") None))) /\
    ByteArray.from_base64 text = Ok ["hello"].
Proof.
  apply (attachment_base64_roundtrip ∅
           (Attachment.mkAttachment (Some "hello") None) "hello").
  left. reflexivity.
Defined.


(** X13: [save_to_file] refuses an attachment without data (the empty
    string counts as none) and leaves the file system alone; with data and
    a file name it writes that one file, after which [load_from_file] and
    [attachment_to_string] on the bare file name give the data back. *)
Theorem attachment_save_load (fs : gmap string string)
    (self : Attachment.Attachment) :
  (Attachment.falsy (Attachment.data self) = true ->
   Attachment.save_to_file fs self = (fs, Raises (Exception "No data to write"))) /\
  (forall d fn,
     Attachment.data self = Some d -> d <> "" ->
     Attachment.file_name self = Some fn -> fn <> "" ->
     exists fs',
       Attachment.save_to_file fs self = (fs', Returns tt) /\
       Attachment.load_from_file fs' (Attachment.mkAttachment None (Some fn))
       = Returns self /\
       attachment_to_string fs' (Attachment.mkAttachment None (Some fn)) = Ok d /\
       (forall q, q <> fn -> fs' !! q = fs !! q)).
Proof.
  split.
  - intros H. unfold Attachment.save_to_file. by rewrite H.
  - intros d fn Hd Hne Hfn Hfne. destruct self as [dd ff]. cbn in Hd, Hfn. subst.
    exists (<[fn := d]> fs).
    unfold Attachment.save_to_file, Attachment.load_from_file, attachment_to_string.
    cbn [Attachment.data Attachment.file_name default Attachment.falsy].
    destruct d as [|c d]; [done|]. destruct fn as [|c' fn]; [done|].
    cbn [id from_option]. rewrite lookup_insert_eq.
    repeat split. intros q Hq. by rewrite lookup_insert_ne.
Qed.

Lemma attachment_save_load_witness :
  let self := Attachment.mkAttachment (Some "hello") (Some "/tmp/a") in
  exists fs',
    Attachment.save_to_file ∅ self = (fs', Returns tt) /\
    Attachment.load_from_file fs' (Attachment.mkAttachment None (Some "/tmp/a"))
    = Returns self /\
    attachment_to_string fs' (Attachment.mkAttachment None (Some "/tmp/a"))
    = Ok "hello" /\
    (forall q, q <> "/tmp/a" -> fs' !! q = (∅ : gmap string string) !! q).
Proof.
  intros self.
  apply (proj2 (attachment_save_load ∅ self) "hello" "/tmp/a");
    [reflexivity | discriminate | reflexivity | discriminate].
Defined.

(** ** More on the request pipeline *)

Section more_pipeline_facts.
Context {Doc Obj Y G : Type}.
Variables in_protocol out_protocol : ProtocolBase Doc Obj G.
Variable process_request : M (MethodContext Doc Obj) unit.
Variable fire_event : string -> string -> M (MethodContext Doc Obj) unit.
Variable send : G -> Y -> M (MethodContext Doc Obj) G.
Variable throw : G -> pyexc -> M (MethodContext Doc Obj) G.

Abbreviation Ctx := (MethodContext Doc Obj).
Abbreviation World := (world Doc Obj).

(** X14: [get_in_object] returns normally when [deserialize] does, and
    also when it fails with a [Fault]: the fault is then in [in_error] and
    [out_error] and [in_object] is absent.  A failure that is not a [Fault]
    leaves [get_in_object]. *)
Theorem get_in_object_captures_Fault (c c1 : Ctx) (r : result unit) :
  deserialize in_protocol REQUEST c = (c1, r) ->
  match r with
  | Ok _ => get_in_object in_protocol c = (c1, Ok tt)
  | Raise e =>
      if is_Fault e then
        let failed := set_out_error (set_in_error (set_in_object c1 None) (Some e)) (Some e) in
        get_in_object in_protocol c = (failed, Ok tt)
      else get_in_object in_protocol c = (c1, Raise e)
  end.
Proof.
  intros Hd. unfold get_in_object, try_except_Fault. rewrite Hd.
  destruct r as [[]|e]; [done|]. by destruct (is_Fault e).
Qed.

(** X15: when [generate_contexts] or [get_in_object] has captured a fault,
    [get_out_object] on the context they leave raises that fault and
    changes nothing, whatever the service method is: it is not called. *)
Theorem failed_input_is_not_dispatched (cs : option string) (c c1 : Ctx) (e : pyexc) :
  is_Fault e = true ->
  (generate_contexts_stages in_protocol cs c = (c1, Raise e) ->
   exists c2,
     generate_contexts in_protocol cs c = (c2, Ok [c2]) /\
     get_out_object process_request c2 = (c2, Raise e)) /\
  (deserialize in_protocol REQUEST c = (c1, Raise e) ->
   exists c2,
     get_in_object in_protocol c = (c2, Ok tt) /\
     get_out_object process_request c2 = (c2, Raise e)).
Proof.
  intros HF. split; intros Hst; eexists;
    unfold generate_contexts, get_in_object, try_except_Fault;
    rewrite Hst, HF; (split; [reflexivity|]);
    unfold get_out_object, mbind, M_bind, get; reflexivity.
Qed.

(** X17: a call of [get_out_string] returns with the context and the event
    log untouched exactly when [out_string] is set at entry.  Hence a call
    on the context that a call which returned has left does nothing, for
    every driver; on a context whose [out_string] is unset, as the run a
    producer's [StopIteration] has ended leaves it, a call is never that
    no-op. *)
Theorem get_out_string_noop_iff (script : list (driver_action Y)) (w : World) :
  (get_out_string out_protocol fire_event send throw script w = (w, Ok Done) <->
   is_Some (out_string (ctx w))) /\
  (forall s0 w0,
     get_out_string out_protocol fire_event send throw s0 w0 = (w, Ok Done) ->
     get_out_string out_protocol fire_event send throw script w = (w, Ok Done)).
Proof.
  assert (Hret : forall s0 w0,
            get_out_string out_protocol fire_event send throw s0 w0 = (w, Ok Done) ->
            is_Some (out_string (ctx w))).
  { intros s0 w0. rewrite get_out_string_unfold. intros H.
    destruct (out_string (ctx w0)) eqn:Hout; [injection H as <-; by rewrite Hout|].
    destruct (serialize_stage out_protocol send throw _ _) as [w1 [[ret|]|e]];
      [done| |done].
    destruct (output_stages out_protocol fire_event _) as [w2 [[]|e]]; [|done].
    injection H as <-. apply with_default_out_string. }
  assert (Hnoop : is_Some (out_string (ctx w)) ->
            get_out_string out_protocol fire_event send throw script w = (w, Ok Done)).
  { intros [s Hs]. rewrite get_out_string_unfold. by rewrite Hs. }
  split.
  - split; [apply Hret|apply Hnoop].
  - intros s0 w0 H. apply Hnoop. by apply (Hret s0 w0).
Qed.

(** X18: while the coroutine stands at its [yield], no lifecycle event has
    been fired; it only gets there for a context that had neither an
    [out_string] nor an [out_document]. *)
Theorem suspended_fires_nothing (script : list (driver_action Y)) (w w' : World)
    (ret : G) :
  get_out_string out_protocol fire_event send throw script w = (w', Ok (Suspended ret)) ->
  fired w' = fired w /\ out_string (ctx w) = None /\ out_document (ctx w) = None.
Proof.
  rewrite get_out_string_unfold.
  destruct (out_string (ctx w)); [done|].
  destruct (serialize_stage out_protocol send throw _ _) as [w0 [[ret'|]|e]] eqn:Hser.
  - intros [= <- <-]. split; [by apply serialize_stage_fired in Hser|]. split; [done|].
    unfold serialize_stage, mbind, M_bind, get, mret, M_ret in Hser.
    by destruct (out_document (ctx w)).
  - by destruct (output_stages out_protocol fire_event _) as [w1 [[]|e]].
  - done.
Qed.

End more_pipeline_facts.

Lemma get_in_object_captures_Fault_witness :
  let e := ValidationError "<request/>" None in
  let failing : ProtocolBase unit unit nat :=
    mkProtocol (fun _ => mret tt) (fun _ => mret tt) (c ← get; mret [c])
               (fun _ => raise e) (fun _ => mret Produced) (mret tt) in
  let failed :=
    set_out_error (set_in_error (set_in_object Sample.request None) (Some e)) (Some e) in
  get_in_object failing Sample.request = (failed, Ok tt).
Proof.
  intros e failing failed.
  apply (get_in_object_captures_Fault failing Sample.request Sample.request (Raise e)).
  reflexivity.
Defined.

Lemma failed_input_is_not_dispatched_witness :
  let e := Fault "Client.XMLSyntaxError" "document could not be parsed" in
  exists c2,
    generate_contexts (Sample.rejecting_protocol e) None Sample.request = (c2, Ok [c2]) /\
    get_out_object (fun c => (c, Ok tt)) c2 = (c2, Raise e).
Proof.
  intros e.
  apply (proj1 (failed_input_is_not_dispatched (Sample.rejecting_protocol e)
                  (fun c => (c, Ok tt)) None Sample.request Sample.request e eq_refl)).
  reflexivity.
Defined.

Lemma get_out_string_noop_iff_witness :
  let w' := fst (get_out_string Sample.streaming_protocol Sample.no_handlers
                   Sample.send Sample.throw [Send tt; Throw Break] Sample.start) in
  get_out_string Sample.streaming_protocol Sample.no_handlers
    Sample.send Sample.throw [Send tt] w' = (w', Ok Done).
Proof.
  intros w'.
  apply (proj2 (get_out_string_noop_iff Sample.streaming_protocol
                  Sample.no_handlers Sample.send Sample.throw [Send tt] w')
               [Send tt; Throw Break] Sample.start).
  vm_compute. reflexivity.
Defined.

(** After the run that the producer's [StopIteration] ended, [out_string]
    is unset, and a second call serializes again: it stands at the [yield]
    with a new producer. *)
Example get_out_string_again_after_StopIteration :
  let w1 := fst (get_out_string Sample.streaming_protocol Sample.no_handlers
                   Sample.send Sample.throw [Send tt; Send tt; Send tt] Sample.start) in
  out_string (ctx w1) = None /\
  snd (get_out_string Sample.streaming_protocol Sample.no_handlers
         Sample.send Sample.throw [] w1) = Ok (Suspended 2%nat).
Proof. repeat split. Qed.

Lemma suspended_fires_nothing_witness :
  let w' := fst (get_out_string Sample.streaming_protocol Sample.no_handlers
                   Sample.send Sample.throw [Send tt] Sample.start) in
  fired w' = fired Sample.start /\
  out_string (ctx Sample.start) = None /\
  out_document (ctx Sample.start) = None.
Proof.
  intros w'.
  apply (suspended_fires_nothing Sample.streaming_protocol Sample.no_handlers
           Sample.send Sample.throw [Send tt] Sample.start w' 1%nat).
  vm_compute. reflexivity.
Defined.
